(** * StockChart: the chart computation and interaction engine

    A shallow embedding of [client/src/components/StockChart/StockChart.jsx]:
    the moving-average overlay, the derived scales, the price path, the
    volume bars and their colours, the pointer handler with its
    nearest-record lookup, the render entry point, and the resize handler
    with its listener registration.

    Numbers.  Prices, volumes and pixel coordinates are JavaScript numbers;
    they are embedded as exact rationals [Q], compared up to [==].  An
    operation whose JavaScript result is not a finite number (0/0, arithmetic
    on [undefined]) yields [None].  Dates are embedded as their integer
    millisecond time value [Z], which is what the comparison and subtraction
    operators of JavaScript see.  Where the rounding of doubles decides a
    property, the price domain is also given on IEEE 754 doubles (module
    [F64]). *)

From Stdlib Require Import ZArith QArith Qround Lia Lqa.
From Stdlib Require Import Floats.PrimFloat.
From stdpp Require Import base option list strings gmap.
From Equations Require Import Equations.

#[local] Open Scope nat_scope.

(** ** JavaScript built-ins *)

Module Js.

(** [Array.prototype.slice(start, end)] on integer arguments: a negative
    bound counts from the end of the array, both bounds are clamped to
    [0 .. length]. *)
Definition slice {A : Type} (l : list A) (start final : Z) : list A :=
  let len := Z.of_nat (length l) in
  let k := if decide (start < 0)%Z then Z.max (len + start) 0 else Z.min start len in
  let e := if decide (final < 0)%Z then Z.max (len + final) 0 else Z.min final len in
  take (Z.to_nat (Z.max (e - k) 0)) (drop (Z.to_nat k) l).

(** [Array.prototype.reduce(f, init)]. *)
Definition reduce {A B : Type} (f : B -> A -> B) (init : B) (l : list A) : B :=
  fold_left f l init.

(** [x / y]: not a finite number when the divisor is zero. *)
Definition div (x y : Q) : option Q :=
  if Qeq_bool y 0 then None else Some (x / y)%Q.

(** [array.length] as a number. *)
Definition length_num {A : Type} (l : list A) : Q :=
  inject_Z (Z.of_nat (length l)).

(** [Number(v)] for a value that is a number or [null]: [null] becomes 0.
    This is what [Math.min(v)] and [Math.max(v)] of one argument return. *)
Definition to_number (v : option Q) : Q := default 0%Q v.

(** [s + v] where [v] is a string or [null]: [null] is spelled out. *)
Definition concat_attr (s : string) (v : option string) : string :=
  s +:+ default "null"%string v.

(** [x > y] on numbers. *)
Definition gt (x y : Q) : bool := negb (Qle_bool x y).

(** [Math.round(x)]: the nearest integer, a half going up. *)
Definition round (x : Q) : Z := Qfloor (x + (1 # 2)).


End Js.

(** ** The parts of d3 the component calls

    d3 is a dependency of the component, not part of it; these definitions
    follow d3-array's [min], [max] and [bisector(...).left], d3-scale's
    continuous scales, and the listener table of d3-selection's [on]. *)

Module D3.

(** [d3.min(values)]: the first value that no later value is below;
    [undefined] on an empty array. *)
Definition min {A : Type} (lt : A -> A -> bool) (values : list A) : option A :=
  fold_left (fun m value =>
               match m with
               | None => Some value
               | Some m' => if lt value m' then Some value else m
               end) values None.

(** [d3.max(values)]. *)
Definition max {A : Type} (lt : A -> A -> bool) (values : list A) : option A :=
  fold_left (fun m value =>
               match m with
               | None => Some value
               | Some m' => if lt m' value then Some value else m
               end) values None.

(** [d3.bisector(f).left(a, x, lo, hi)]:
    [while (lo < hi) { mid = (lo + hi) >>> 1;
                       if (f(a[mid]) < x) lo = mid + 1; else hi = mid; }
     return lo;]
    [None] stands for the TypeError raised when the accessor reads a field of
    [a[mid] = undefined]. *)
Equations? bisector_left {A : Type} (f : A -> Z) (a : list A) (x : Z)
  (lo hi : nat) : option nat by wf (hi - lo) lt :=
  bisector_left f a x lo hi with decide (lo < hi) => {
    | right _ := Some lo
    | left _ with a !! ((lo + hi) / 2) => {
        | None := None
        | Some d with decide (f d < x)%Z => {
            | left _ := bisector_left f a x ((lo + hi) / 2 + 1) hi
            | right _ := bisector_left f a x lo ((lo + hi) / 2) } } }.
Proof.
  all: change (Nat.divmod (lo + hi) 1 0 1).1 with ((lo + hi) / 2);
    pose proof (Nat.div_mod_eq (lo + hi) 2);
    pose proof (Nat.mod_upper_bound (lo + hi) 2); lia.
Qed.

(** A continuous scale with a two-point domain and range and no clamping
    ([scaleLinear], and [scaleTime] on time values).  A domain bound is
    [None] when it was set from [undefined]. *)
Record Continuous : Type := mkContinuous {
  domain : option Q * option Q;
  range : Q * Q
}.

(** [normalize(a, b)]: the position of [x] between [a] and [b]; the constant
    one half when [a] and [b] coincide. *)
Definition normalize (a b x : Q) : Q :=
  if Qeq_bool (b - a) 0 then (1 # 2)%Q else ((x - a) / (b - a))%Q.

(** [interpolateNumber(a, b)]. *)
Definition interpolateNumber (a b t : Q) : Q := (a * (1 - t) + b * t)%Q.

(** [bimap(domain, range, interpolate)]. *)
Definition bimap (d0 d1 r0 r1 x : Q) : Q :=
  if Js.gt d0 d1
  then interpolateNumber r1 r0 (normalize d1 d0 x)
  else interpolateNumber r0 r1 (normalize d0 d1 x).

(** [scale(x)]. *)
Definition apply (s : Continuous) (x : Q) : option Q :=
  match domain s with
  | (Some d0, Some d1) => Some (bimap d0 d1 (range s).1 (range s).2 x)
  | _ => None
  end.


(** [selection.on(typename, listener)] on one node: a listener registered
    under a typename replaces the one already registered under it. *)
Definition on {L : Type} (typename : string) (listener : L)
    (table : gmap string L) : gmap string L :=
  <[typename := listener]> table.

End D3.

(** ** Data model *)

(** One record of the series handed to the component.  [volume] is [None]
    when the field is [null]. *)
Record OhlcvRecord : Type := mkOhlcv {
  date : Z;
  open : Q;
  high : Q;
  low : Q;
  close : Q;
  volume : option Q
}.

(** An element of the array returned by [movingAverage]. *)
Record MovingAveragePoint : Type := mkMovingAveragePoint {
  ma_date : Z;
  average : option Q
}.

(** ** movingAverage *)

Definition movingAverage (data : list OhlcvRecord) (numberOfPricePoints : Z)
  : list MovingAveragePoint :=
  imap (fun index row =>
          let start := Z.max 0 (Z.of_nat index - numberOfPricePoints) in
          let end_ := Z.of_nat index in
          let subset := Js.slice data start (end_ + 1) in
          let sum := Js.reduce (fun a b => (a + close b)%Q) 0%Q subset in
          {| ma_date := date row;
             average := Js.div sum (Js.length_num subset) |}) data.

(** ** renderChart: viewport and scales *)

(** The two fields of [window] the component reads. *)
Record Window : Type := mkWindow {
  innerWidth : Q;
  innerHeight : Q
}.

Record Margin : Type := mkMargin {
  margin_top : Q;
  margin_right : Q;
  margin_bottom : Q;
  margin_left : Q
}.

Definition margin : Margin :=
  {| margin_top := 50; margin_right := 50; margin_bottom := 30; margin_left := 50 |}.

Definition width (win : Window) : Q :=
  (innerWidth win - margin_left margin - margin_right margin)%Q.

Definition height (win : Window) : Q :=
  (innerHeight win * 0.85 - margin_top margin - margin_bottom margin)%Q.

Definition xMin (data : list OhlcvRecord) : option Z := D3.min Z.ltb (date <$> data).
Definition xMax (data : list OhlcvRecord) : option Z := D3.max Z.ltb (date <$> data).
Definition yMin (data : list OhlcvRecord) : option Q :=
  D3.min (fun a b => Js.gt b a) (close <$> data).
Definition yMax (data : list OhlcvRecord) : option Q :=
  D3.max (fun a b => Js.gt b a) (close <$> data).

(** [d3.scaleTime().domain([xMin, xMax]).range([0, width])]. *)
Definition xScale (win : Window) (data : list OhlcvRecord) : D3.Continuous :=
  {| D3.domain := (inject_Z <$> xMin data, inject_Z <$> xMax data);
     D3.range := (0%Q, width win) |}.

(** [d3.scaleLinear().domain([yMin - 5, yMax]).range([height, 0])]. *)
Definition yScale (win : Window) (data : list OhlcvRecord) : D3.Continuous :=
  {| D3.domain := ((fun m => (m - 5)%Q) <$> yMin data, yMax data);
     D3.range := (height win, 0%Q) |}.

(** ** renderChart: the price scale in double precision

    The price domain and scale of lines 80-95 on IEEE 754 doubles, the
    numbers JavaScript computes with, for a series given by its closes (none
    of them NaN). *)

Module F64.

Definition yMin (closes : list float) : option float := D3.min PrimFloat.ltb closes.
Definition yMax (closes : list float) : option float := D3.max PrimFloat.ltb closes.

(** [[yMin - 5, yMax]]. *)
Definition yDomain (closes : list float) : option float * option float :=
  ((fun m => (m - 5)%float) <$> yMin closes, yMax closes).

(** [normalize(a, b)]: a difference [b - a] that is zero or not a number is
    not divided by. *)
Definition normalize (a b x : float) : float :=
  let b' := (b - a)%float in
  if PrimFloat.is_nan b' then PrimFloat.nan
  else if PrimFloat.eqb b' 0 then 0.5%float
  else ((x - a) / b')%float.

Definition interpolateNumber (a b t : float) : float :=
  (a * (1 - t) + b * t)%float.

Definition bimap (d0 d1 r0 r1 x : float) : float :=
  if PrimFloat.ltb d1 d0
  then interpolateNumber r1 r0 (normalize d1 d0 x)
  else interpolateNumber r0 r1 (normalize d0 d1 x).

(** [yScale(v)] for a plot [height] pixels high. *)
Definition yScale (height : float) (closes : list float) (v : float) : option float :=
  match yDomain closes with
  | (Some d0, Some d1) => Some (bimap d0 d1 height 0 v)
  | _ => None
  end.

End F64.

(** ** renderChart: volume bars *)

Definition has_volume (d : OhlcvRecord) : bool :=
  match volume d with
  | None => false
  | Some v => negb (Qeq_bool v 0)
  end.

Definition volData (data : list OhlcvRecord) : list OhlcvRecord :=
  List.filter has_volume data.

Definition yMinVolume (data : list OhlcvRecord) : option Q :=
  D3.min (fun a b => Js.gt b a) ((fun d => Js.to_number (volume d)) <$> volData data).

Definition yMaxVolume (data : list OhlcvRecord) : option Q :=
  D3.max (fun a b => Js.gt b a) ((fun d => Js.to_number (volume d)) <$> volData data).

(** [d3.scaleLinear().domain([yMinVolume, yMaxVolume])
      .range([height, height * (3 / 4)])]. *)
Definition yVolumeScale (win : Window) (data : list OhlcvRecord) : D3.Continuous :=
  {| D3.domain := (yMinVolume data, yMaxVolume data);
     D3.range := (height win, (height win * (3 / 4))%Q) |}.

Definition rising : string := "#03a678".
Definition falling : string := "#c0392b".

(** The [fill] callback of the volume bars, called with the bound record
    [d] and its index [i] in [volData]; [None] stands for the TypeError of
    reading [volData[i - 1].close] off the array. *)
Definition fill (vol : list OhlcvRecord) (d : OhlcvRecord) (i : nat) : option string :=
  if decide (i = 0) then Some rising
  else
    prev ← vol !! (i - 1);
    Some (if Js.gt (close prev) (close d) then falling else rising).

(** The colours of the bars, in the order the bars are appended. *)
Definition volFills (data : list OhlcvRecord) : list (option string) :=
  imap (fun i d => fill (volData data) d i) (volData data).

(** One appended [rect.vol]. *)
Record Rect : Type := mkRect {
  rect_x : option Q;
  rect_y : option Q;
  rect_fill : option string;
  rect_width : Q;
  rect_height : option Q
}.

Definition volBars (win : Window) (data : list OhlcvRecord) : list Rect :=
  imap (fun i d =>
          let y := D3.apply (yVolumeScale win data) (Js.to_number (volume d)) in
          {| rect_x := D3.apply (xScale win data) (inject_Z (date d));
             rect_y := y;
             rect_fill := fill (volData data) d i;
             rect_width := 1;
             rect_height := (fun y' => (height win - y')%Q) <$> y |})
       (volData data).

(** ** renderChart: the crosshair's record lookup *)

(** [bisectDate = d3.bisector((d) => d.date).left], called as
    [bisectDate(data, correspondingDate, 1)]: [hi] defaults to
    [data.length]. *)
Definition bisectDate (data : list OhlcvRecord) (x : Z) (lo : nat) : option nat :=
  D3.bisector_left date data x lo (length data).

(** Which arm of the [if (i === 0) .. else if (i >= data.length) .. else ..]
    of [generateCrosshair] assigned [currentPoint]. *)
Inductive Arm : Type := ArmFirst | ArmLast | ArmNearest.

(** Lines 237-249 of [generateCrosshair]: the arm taken and the value
    assigned to [currentPoint]; [None] when the lookup raises or leaves
    [currentPoint] undefined. *)
Definition crosshairLookup (data : list OhlcvRecord) (correspondingDate : Z)
  : option (Arm * OhlcvRecord) :=
  i ← bisectDate data correspondingDate 1;
  if decide (i = 0) then
    d ← data !! 0; Some (ArmFirst, d)
  else if decide (length data <= i) then
    d ← data !! (length data - 1); Some (ArmLast, d)
  else
    d0 ← data !! (i - 1);
    d1 ← data !! i;
    Some (ArmNearest,
          if decide (correspondingDate - date d0 > date d1 - correspondingDate)%Z
          then d1 else d0).

Definition currentPoint (data : list OhlcvRecord) (correspondingDate : Z)
  : option OhlcvRecord :=
  snd <$> crosshairLookup data correspondingDate.

(** ** renderChart, responsivefy and the effect of the component *)

(** The [svg] appended by one call of [renderChart]: its scales, the data
    bound to the two paths and the volume bars. *)
Record Svg : Type := mkSvg {
  svg_xScale : D3.Continuous;
  svg_yScale : D3.Continuous;
  svg_priceChart : list OhlcvRecord;
  svg_movingAverageLine : list MovingAveragePoint;
  svg_vol : list Rect
}.

(** The page: the listeners registered on [window], each recorded as the
    component instance whose [svg] its closure resizes, and the [svg]
    children of every instance's [div.chart]. *)
Record Page : Type := mkPage {
  listeners : gmap string nat;
  charts : gmap nat (list Svg)
}.

(** The [svg] children of the [div.chart] of instance [inst]. *)
Definition svgs_of (charts : gmap nat (list Svg)) (inst : nat) : list Svg :=
  default [] (charts !! inst).

(** The attributes of the container the component renders:
    [<div className="chart" ref={chartRef}></div>]. *)
Definition container_attr : gmap string string := {[ "class"%string := "chart"%string ]}.

(** [d3.select(window).on('resize.' + container.attr('id'), resize)]. *)
Definition responsivefy (inst : nat) (table : gmap string nat) : gmap string nat :=
  D3.on (Js.concat_attr "resize." (container_attr !! "id"%string)) inst table.

Definition renderChart (win : Window) (inst : nat) (data : list OhlcvRecord)
    (page : Page) : Page :=
  let cleared := <[inst := []]> (charts page) in
  let svg :=
    {| svg_xScale := xScale win data;
       svg_yScale := yScale win data;
       svg_priceChart := data;
       svg_movingAverageLine := movingAverage data 49;
       svg_vol := volBars win data |} in
  {| listeners := responsivefy inst (listeners page);
     charts := <[inst := svgs_of cleared inst ++ [svg]]> cleared |}.

(** The body of the component's [useEffect], run with [props.data]
    ([None] when it is [null] or [undefined]). *)
Definition useEffect (win : Window) (inst : nat)
    (props_data : option (list OhlcvRecord)) (page : Page) : Page :=
  match props_data with
  | Some data =>
      if decide (0 < length data) then renderChart win inst data page else page
  | None => page
  end.

(** A page on which nothing has been rendered yet. *)
Definition empty_page : Page := {| listeners := ∅; charts := ∅ |}.

(** ** renderChart: the price path *)

(** The point the [line] generator gives a record: [x] is
    [xScale(d.date)], [y] is [yScale(d.close)]. *)
Definition line (win : Window) (data : list OhlcvRecord) (d : OhlcvRecord)
  : option Q * option Q :=
  (D3.apply (xScale win data) (inject_Z (date d)),
   D3.apply (yScale win data) (close d)).

(** ** generateCrosshair *)



(** ** responsivefy: the resize handler *)

(** [aspect = width / height], from the integer pixel sizes [parseInt]
    reads off the style of the [svg]; [None] when it is not a finite
    number. *)
Definition aspect (svgWidth svgHeight : Z) : option Q :=
  Js.div (inject_Z svgWidth) (inject_Z svgHeight).

(** [resize]: the [width] and [height] attributes it sets for a container
    that is [targetWidth] pixels wide; [None] when the computation of the
    height passes through a value that is not a finite number. *)
Definition resize (aspect : option Q) (targetWidth : Z) : option (Z * Z) :=
  a ← aspect;
  h ← Js.div (inject_Z targetWidth) a;
  Some (targetWidth, Js.round h).

(** ** The effect over time *)

(** The effect run once for every update of a component on the page, each
    update naming the instance and the [props.data] it receives. *)
Definition run (win : Window) (updates : list (nat * option (list OhlcvRecord)))
    (page : Page) : Page :=
  fold_left (fun pg u => useEffect win u.1 u.2 pg) updates page.

(** What a sequence of updates should leave on the page: the data of the
    last update of instance [inst] that carried a record, and the instance of
    the last update, of any instance, that carried one. *)
Definition last_data (inst : nat)
    (updates : list (nat * option (list OhlcvRecord))) : option (list OhlcvRecord) :=
  last (omap (fun u =>
                match u.2 with
                | Some (d :: rest) =>
                    if decide (u.1 = inst) then Some (d :: rest) else None
                | _ => None
                end) updates).

Definition last_rendered (updates : list (nat * option (list OhlcvRecord)))
  : option nat :=
  last (omap (fun u =>
                match u.2 with
                | Some (_ :: _) => Some u.1
                | _ => None
                end) updates).

(** ** The caller's invariant on the series *)

(** The series is ordered by date: no record is dated before its
    predecessor.  A series with strictly increasing dates is one such. *)
Fixpoint date_ordered (data : list OhlcvRecord) : bool :=
  match data with
  | d0 :: rest =>
      match rest with
      | d1 :: _ => (date d0 <=? date d1)%Z && date_ordered rest
      | [] => true
      end
  | [] => true
  end.

(** ** The window mean and the volume domain, as the specification words them *)

(** The first index of the window of index [i] for a lookback of [w]. *)
Definition window_start (i : nat) (w : Z) : nat :=
  Z.to_nat (Z.max 0 (Z.of_nat i - w)).

(** [close] of the record at index [j]. *)
Definition closeAt (data : list OhlcvRecord) (j : nat) : Q :=
  default 0%Q (close <$> data !! j).

(** The sum of [close] over the [n] indices [lo, lo + 1, ...]. *)
Fixpoint sum_close (data : list OhlcvRecord) (lo n : nat) : Q :=
  match n with
  | O => 0%Q
  | S n' => (closeAt data lo + sum_close data (S lo) n')%Q
  end.

(** The arithmetic mean of [close] over the indices [lo .. hi] inclusive. *)
Definition window_mean (data : list OhlcvRecord) (lo hi : nat) : Q :=
  (sum_close data lo (S hi - lo) / inject_Z (Z.of_nat (S hi - lo)))%Q.

(** The volumes the specification takes the volume domain over: those that
    are present and not zero, in series order. *)
Definition nonzero_volumes (data : list OhlcvRecord) : list Q :=
  List.filter (fun v => negb (Qeq_bool v 0)) (omap volume data).

(** The keys of [a] never decrease with the index. *)
Definition ordered_by {A : Type} (f : A -> Z) (a : list A) : Prop :=
  forall i j di dj, i <= j -> a !! i = Some di -> a !! j = Some dj ->
                    (f di <= f dj)%Z.

(** [m] is a value of [l] that is below every value of [l]. *)
Definition lowest {K : Type} (le : K -> K -> Prop) (m : K) (l : list K) : Prop :=
  m ∈ l /\ forall v, v ∈ l -> le m v.

(** [m] is a value of [l] that is above every value of [l]. *)
Definition highest {K : Type} (le : K -> K -> Prop) (m : K) (l : list K) : Prop :=
  m ∈ l /\ forall v, v ∈ l -> le v m.

(** ** A worked example

    The series of the specification's end-to-end example: closes 10, 12, 8
    and volumes 100, 200, 150 on three consecutive days. *)
Definition sample_0 : OhlcvRecord := mkOhlcv 86400000 10 10 10 10 (Some 100%Q).
Definition sample_1 : OhlcvRecord := mkOhlcv 172800000 12 12 12 12 (Some 200%Q).
Definition sample_2 : OhlcvRecord := mkOhlcv 259200000 8 8 8 8 (Some 150%Q).

Definition sample_series : list OhlcvRecord := [sample_0; sample_1; sample_2].

Definition sample_window : Window := mkWindow 1280 800.

(** * Properties *)

(** ** Array helpers *)

Lemma slice_take_drop {A : Type} (l : list A) (s e : nat) :
  s <= e -> e <= length l ->
  Js.slice l (Z.of_nat s) (Z.of_nat e) = take (e - s) (drop s l).
Proof.
  intros Hse Hel. unfold Js.slice.
  destruct (decide (Z.of_nat s < 0)%Z) as [Hneg|_]; [lia|].
  destruct (decide (Z.of_nat e < 0)%Z) as [Hneg|_]; [lia|].
  f_equal; [|f_equal]; lia.
Qed.

Lemma reduce_close_acc (l : list OhlcvRecord) (acc : Q) :
  (Js.reduce (fun a b => a + close b) acc l ==
   acc + Js.reduce (fun a b => a + close b) 0 l)%Q.
Proof.
  unfold Js.reduce. revert acc.
  induction l as [|x l IH]; intros acc; simpl.
  - ring.
  - rewrite (IH (acc + close x)%Q), (IH (0 + close x)%Q). ring.
Qed.

Lemma reduce_close_window (data : list OhlcvRecord) (n lo : nat) :
  lo + n <= length data ->
  (Js.reduce (fun a b => a + close b) 0 (take n (drop lo data)) ==
   sum_close data lo n)%Q.
Proof.
  revert lo. induction n as [|n IH]; intros lo Hlen.
  - reflexivity.
  - destruct (data !! lo) as [x|] eqn:Hx.
    2:{ apply lookup_ge_None in Hx. lia. }
    rewrite (drop_S _ _ _ Hx). cbn [take sum_close].
    change (Js.reduce (fun a b => (a + close b)%Q) 0%Q (x :: take n (drop (S lo) data)))
      with (Js.reduce (fun a b => (a + close b)%Q) (0 + close x)%Q (take n (drop (S lo) data))).
    rewrite reduce_close_acc, IH by lia.
    unfold closeAt. rewrite Hx. simpl. ring.
Qed.

Lemma length_num_nonzero (k : nat) :
  Qeq_bool (inject_Z (Z.of_nat (S k))) 0 = false.
Proof.
  destruct (Qeq_bool _ _) eqn:E; [|reflexivity].
  apply Qeq_bool_eq in E. unfold Qeq in E. simpl in E. lia.
Qed.

(** The value [movingAverage] computes at an index of the series, for a
    non-negative lookback. *)
Lemma movingAverage_lookup (data : list OhlcvRecord) (w : Z) (i : nat)
    (row : OhlcvRecord) :
  (0 <= w)%Z -> data !! i = Some row ->
  exists p a,
    movingAverage data w !! i = Some p /\ ma_date p = date row /\
    average p = Some a /\ (a == window_mean data (window_start i w) i)%Q.
Proof.
  intros Hw Hrow.
  pose proof (lookup_lt_Some _ _ _ Hrow) as Hi.
  unfold movingAverage. rewrite list_lookup_imap, Hrow. cbn [fmap option_fmap option_map].
  set (lo := window_start i w).
  assert (Hlo : lo <= i) by (unfold lo, window_start; lia).
  replace (Z.max 0 (Z.of_nat i - w)) with (Z.of_nat lo)
    by (unfold lo, window_start; lia).
  replace (Z.of_nat i + 1)%Z with (Z.of_nat (S i)) by lia.
  rewrite slice_take_drop by lia.
  eexists _, _. split; [reflexivity|]. split; [reflexivity|]. cbn [average].
  unfold Js.div, Js.length_num.
  rewrite length_take, length_drop.
  replace ((S i - lo) `min` (length data - lo)) with (S (i - lo)) by lia.
  rewrite length_num_nonzero. split; [reflexivity|].
  unfold window_mean. replace (S i - lo) with (S (i - lo)) by lia.
  rewrite reduce_close_window by lia. reflexivity.
Qed.

Lemma window_mean_single (data : list OhlcvRecord) (row : OhlcvRecord) :
  data !! 0 = Some row -> (window_mean data 0 0 == close row)%Q.
Proof.
  intros H. unfold window_mean, closeAt. cbn [Nat.sub sum_close].
  unfold closeAt. rewrite H. cbn. field.
Qed.

(** ** C1: movingAverage *)

(** C1.  For every series and every lookback [w >= 0], [movingAverage]
    returns one point per record, the point at index [i] carries the date of
    record [i] and the arithmetic mean of [close] over the indices
    [max(0, i - w) .. i]; the first average is the first close, and a
    one-record series yields the one point whose average is that record's
    close. *)
Theorem movingAverage_spec (data : list OhlcvRecord) (w : Z) :
  (0 <= w)%Z ->
  length (movingAverage data w) = length data /\
  (forall i row, data !! i = Some row ->
     exists p a,
       movingAverage data w !! i = Some p /\ ma_date p = date row /\
       average p = Some a /\
       (a == window_mean data (Z.to_nat (Z.max 0 (Z.of_nat i - w))) i)%Q) /\
  (forall row, data !! 0 = Some row ->
     exists p a,
       movingAverage data w !! 0 = Some p /\ average p = Some a /\
       (a == close row)%Q) /\
  (forall row, data = [row] ->
     exists a,
       movingAverage data w = [ {| ma_date := date row; average := Some a |} ] /\
       (a == close row)%Q).
Proof.
  intros Hw. split; [apply length_imap|]. split; [|split].
  - intros i row Hrow. exact (movingAverage_lookup data w i row Hw Hrow).
  - intros row Hrow.
    destruct (movingAverage_lookup data w 0 row Hw Hrow) as (p & a & Hp & _ & Ha & Hmean).
    exists p, a. split; [exact Hp|]. split; [exact Ha|].
    rewrite Hmean. unfold window_start.
    replace (Z.to_nat (Z.max 0 (Z.of_nat 0 - w))) with 0 by lia.
    apply window_mean_single, Hrow.
  - intros row ->.
    destruct (movingAverage_lookup [row] w 0 row Hw eq_refl)
      as (p & a & Hp & Hd & Ha & Hmean).
    exists a. split.
    + assert (Hlen : length (movingAverage [row] w) = 1) by apply length_imap.
      destruct (movingAverage [row] w) as [|q [|q' l]]; simpl in Hlen; try lia.
      simpl in Hp. injection Hp as ->. destruct p as [pd pa]. simpl in *. congruence.
    + rewrite Hmean. unfold window_start.
      replace (Z.to_nat (Z.max 0 (Z.of_nat 0 - w))) with 0 by lia.
      apply window_mean_single. reflexivity.
Qed.

Lemma movingAverage_spec_witness :
  (0 <= 2)%Z /\
  length (movingAverage sample_series 2) = length sample_series /\
  (forall i row, sample_series !! i = Some row ->
     exists p a,
       movingAverage sample_series 2 !! i = Some p /\ ma_date p = date row /\
       average p = Some a /\
       (a == window_mean sample_series (Z.to_nat (Z.max 0 (Z.of_nat i - 2))) i)%Q) /\
  (forall row, sample_series !! 0 = Some row ->
     exists p a,
       movingAverage sample_series 2 !! 0 = Some p /\ average p = Some a /\
       (a == close row)%Q) /\
  (forall row, sample_series = [row] ->
     exists a,
       movingAverage sample_series 2 =
         [ {| ma_date := date row; average := Some a |} ] /\
       (a == close row)%Q).
Proof.
  split; [lia | apply (movingAverage_spec sample_series 2); lia].
Defined.

(** The worked example of the specification: window 2 over closes
    10, 12, 8 gives the averages 10, 11, 10. *)
Example movingAverage_sample :
  Forall2 (fun p a => exists q, average p = Some q /\ (q == a)%Q)
    (movingAverage sample_series 2) [10%Q; 11%Q; 10%Q].
Proof.
  repeat constructor; eexists; (split; [reflexivity|]); reflexivity.
Qed.

(** A negative lookback leaves every window empty: the mean is 0/0. *)
Example movingAverage_negative_lookback :
  average <$> movingAverage sample_series (-1) = [None; None; None].
Proof. reflexivity. Qed.

(** ** The insertion-point search *)

Section Bisect.

Context {A : Type} (f : A -> Z).

(** The search returns an index, never below [lo], whatever the array. *)
Lemma bisector_left_bounds (a : list A) (x : Z) (lo hi : nat) :
  hi <= length a ->
  exists i, D3.bisector_left f a x lo hi = Some i /\ lo <= i /\ i <= Nat.max lo hi.
Proof.
  funelim (D3.bisector_left f a x lo hi); intros Hhi.
  - exists lo. split; [reflexivity|lia].
  - match goal with H : a !! _ = None |- _ => apply lookup_ge_None in H end.
    pose proof (Nat.div_mod_eq (lo + hi) 2).
    pose proof (Nat.mod_upper_bound (lo + hi) 2). lia.
  - match goal with IH : _ -> exists _, _ |- _ => destruct (IH Hhi) as (i & -> & Hi1 & Hi2) end.
    exists i. split; [reflexivity|].
    pose proof (Nat.div_mod_eq (lo + hi) 2).
    pose proof (Nat.mod_upper_bound (lo + hi) 2). lia.
  - pose proof (Nat.div_mod_eq (lo + hi) 2).
    pose proof (Nat.mod_upper_bound (lo + hi) 2).
    match goal with IH : _ -> exists _, _ |- _ =>
      destruct IH as (i & -> & Hi1 & Hi2); [lia|] end.
    exists i. split; [reflexivity|]. lia.
Qed.

(** On an ordered array the returned index splits [lo .. hi): the keys
    before it are below [x], the keys from it on are not. *)
Lemma bisector_left_split (a : list A) (x : Z) (lo hi : nat) :
  ordered_by f a -> lo <= hi -> hi <= length a ->
  (forall k d, hi <= k -> a !! k = Some d -> (x <= f d)%Z) ->
  exists i, D3.bisector_left f a x lo hi = Some i /\ lo <= i /\ i <= hi /\
    (forall k d, lo <= k -> k < i -> a !! k = Some d -> (f d < x)%Z) /\
    (forall k d, i <= k -> a !! k = Some d -> (x <= f d)%Z).
Proof.
  intros Hord. funelim (D3.bisector_left f a x lo hi); intros Hle Hhi Hup.
  - exists lo. split; [reflexivity|]. repeat split; try lia.
    intros k d Hk. apply Hup. lia.
  - match goal with H : a !! _ = None |- _ => apply lookup_ge_None in H end.
    pose proof (Nat.div_mod_eq (lo + hi) 2).
    pose proof (Nat.mod_upper_bound (lo + hi) 2). lia.
  - pose proof (Nat.div_mod_eq (lo + hi) 2).
    pose proof (Nat.mod_upper_bound (lo + hi) 2).
    match goal with IH : _ -> _ -> _ -> _ -> exists _, _ |- _ =>
      destruct (IH Hord) as (i & -> & Hi1 & Hi2 & Hlow & Hhigh); [lia|lia|exact Hup|] end.
    exists i. split; [reflexivity|]. repeat split; try lia; [|exact Hhigh].
    intros k dk Hk1 Hk2 Hdk.
    destruct (decide (k <= (lo + hi) / 2)) as [Hmid|Hmid].
    + match goal with Hd : a !! ((lo + hi) / 2) = Some ?d |- _ =>
        pose proof (Hord k _ dk d Hmid Hdk Hd) end. lia.
    + apply (Hlow k dk); [lia|lia|exact Hdk].
  - pose proof (Nat.div_mod_eq (lo + hi) 2).
    pose proof (Nat.mod_upper_bound (lo + hi) 2).
    match goal with IH : _ -> _ -> _ -> _ -> exists _, _ |- _ =>
      destruct (IH Hord) as (i & -> & Hi1 & Hi2 & Hlow & Hhigh); [lia|lia| |] end.
    + intros k dk Hk Hdk.
      match goal with Hd : a !! ((lo + hi) / 2) = Some ?d |- _ =>
        pose proof (Hord _ k d dk Hk Hd Hdk) end. lia.
    + exists i. split; [reflexivity|]. repeat split; try lia; assumption.
Qed.

End Bisect.

(** ** The crosshair lookup *)

Lemma date_ordered_head (d : OhlcvRecord) (rest : list OhlcvRecord) :
  date_ordered (d :: rest) = true ->
  forall j dj, rest !! j = Some dj -> (date d <= date dj)%Z.
Proof.
  revert d. induction rest as [|d1 rest IH]; intros d Hord j dj Hj.
  - discriminate.
  - cbn [date_ordered] in Hord. apply andb_prop in Hord as [Hle Hrest].
    apply Z.leb_le in Hle. destruct j as [|j].
    + injection Hj as <-. exact Hle.
    + pose proof (IH d1 Hrest j dj Hj). lia.
Qed.

Lemma date_ordered_tail (d : OhlcvRecord) (rest : list OhlcvRecord) :
  date_ordered (d :: rest) = true -> date_ordered rest = true.
Proof.
  destruct rest as [|d1 rest]; [reflexivity|].
  cbn [date_ordered]. intros H. apply andb_prop in H as [_ H]. exact H.
Qed.

Lemma date_ordered_lookup (data : list OhlcvRecord) :
  date_ordered data = true -> ordered_by date data.
Proof.
  induction data as [|d rest IH]; intros Hord i j di dj Hij Hi Hj.
  - discriminate.
  - destruct i as [|i], j as [|j]; try lia.
    + simpl in Hi, Hj. injection Hi as <-. injection Hj as <-. lia.
    + simpl in Hi. injection Hi as <-. exact (date_ordered_head d rest Hord j dj Hj).
    + apply (IH (date_ordered_tail d rest Hord) i j di dj); [lia|exact Hi|exact Hj].
Qed.

(** The index handed to the three-way branch, on an ordered series. *)
Lemma bisectDate_split (data : list OhlcvRecord) (t : Z) :
  date_ordered data = true -> 1 <= length data ->
  exists i, bisectDate data t 1 = Some i /\ 1 <= i /\ i <= length data /\
    (forall k d, 1 <= k -> k < i -> data !! k = Some d -> (date d < t)%Z) /\
    (forall k d, i <= k -> data !! k = Some d -> (t <= date d)%Z).
Proof.
  intros Hord Hlen. unfold bisectDate.
  apply bisector_left_split; [apply date_ordered_lookup, Hord|lia|lia|].
  intros k d Hk Hd. apply lookup_lt_Some in Hd. lia.
Qed.

Lemma crosshairLookup_nearest (data : list OhlcvRecord) (t : Z) (i : nat)
    (d0 d1 : OhlcvRecord) :
  bisectDate data t 1 = Some i -> 1 <= i -> i < length data ->
  data !! (i - 1) = Some d0 -> data !! i = Some d1 ->
  crosshairLookup data t =
    Some (ArmNearest, if decide (t - date d0 > date d1 - t)%Z then d1 else d0).
Proof.
  intros Hb Hi1 Hi2 H0 H1. unfold crosshairLookup. rewrite Hb. cbn [mbind option_bind].
  destruct (decide (i = 0)); [lia|].
  destruct (decide (length data <= i)); [lia|].
  rewrite H0, H1. reflexivity.
Qed.

Lemma crosshairLookup_last (data : list OhlcvRecord) (t : Z) (i : nat)
    (d : OhlcvRecord) :
  bisectDate data t 1 = Some i -> 1 <= i -> length data <= i ->
  data !! (length data - 1) = Some d ->
  crosshairLookup data t = Some (ArmLast, d).
Proof.
  intros Hb Hi1 Hi2 Hd. unfold crosshairLookup. rewrite Hb. cbn [mbind option_bind].
  destruct (decide (i = 0)); [lia|].
  destruct (decide (length data <= i)); [|lia].
  rewrite Hd. reflexivity.
Qed.

(** ** C2: the nearest of the two neighbours *)

(** C2.  On a date-ordered series, for a target date strictly between the
    dates of the records at [i - 1] and [i], the lookup returns the one of
    the two whose date is nearest to the target, the earlier one on a
    tie. *)
Theorem crosshair_nearest_neighbour (data : list OhlcvRecord) (t : Z) (i : nat)
    (d0 d1 : OhlcvRecord) :
  date_ordered data = true ->
  1 <= i -> data !! (i - 1) = Some d0 -> data !! i = Some d1 ->
  (date d0 < t < date d1)%Z ->
  exists p, currentPoint data t = Some p /\
    (p = d0 \/ p = d1) /\
    Z.abs (date p - t) = Z.min (Z.abs (date d0 - t)) (Z.abs (date d1 - t)) /\
    (Z.abs (date d0 - t) <= Z.abs (date d1 - t) -> p = d0)%Z /\
    (Z.abs (date d1 - t) < Z.abs (date d0 - t) -> p = d1)%Z.
Proof.
  intros Hord Hi H0 H1 Ht.
  pose proof (lookup_lt_Some _ _ _ H1) as Hlen.
  destruct (bisectDate_split data t Hord) as (j & Hb & Hj1 & Hj2 & Hlow & Hhigh); [lia|].
  assert (j = i) as ->.
  { destruct (decide (j < i)) as [Hlt|Hge].
    - pose proof (Hhigh (i - 1) d0 ltac:(lia) H0). lia.
    - destruct (decide (i < j)) as [Hgt|Hle]; [|lia].
      pose proof (Hlow i d1 Hi Hgt H1). lia. }
  unfold currentPoint.
  rewrite (crosshairLookup_nearest data t i d0 d1 Hb Hi Hlen H0 H1).
  cbn [fmap option_fmap option_map snd].
  destruct (decide (t - date d0 > date d1 - t)%Z) as [Hfar|Hnear].
  - exists d1. split; [reflexivity|]. split; [right; reflexivity|].
    split; [lia|]. split; [lia|reflexivity].
  - exists d0. split; [reflexivity|]. split; [left; reflexivity|].
    split; [lia|]. split; [reflexivity|lia].
Qed.

Lemma crosshair_nearest_neighbour_witness :
  date_ordered sample_series = true /\ 1 <= 2 /\
  sample_series !! (2 - 1) = Some sample_1 /\ sample_series !! 2 = Some sample_2 /\
  (date sample_1 < 216000000 < date sample_2)%Z /\
  exists p, currentPoint sample_series 216000000 = Some p /\
    (p = sample_1 \/ p = sample_2) /\
    Z.abs (date p - 216000000) =
      Z.min (Z.abs (date sample_1 - 216000000)) (Z.abs (date sample_2 - 216000000)) /\
    (Z.abs (date sample_1 - 216000000) <= Z.abs (date sample_2 - 216000000) ->
     p = sample_1)%Z /\
    (Z.abs (date sample_2 - 216000000) < Z.abs (date sample_1 - 216000000) ->
     p = sample_2)%Z.
Proof.
  assert (Hd : (date sample_1 < 216000000 < date sample_2)%Z) by (simpl; lia).
  do 5 (split; [first [reflexivity | lia | exact Hd]|]).
  exact (crosshair_nearest_neighbour sample_series 216000000 2 sample_1 sample_2
           eq_refl (le_S 1 1 (le_n 1)) eq_refl eq_refl Hd).
Defined.

(** A target before the first record's date: the search returns 1, which
    sends a one-record series to the last arm and a longer one to the
    distance comparison, where the left distance is negative. *)
Lemma crosshairLookup_before_first (data : list OhlcvRecord) (t : Z)
    (first : OhlcvRecord) :
  date_ordered data = true -> head data = Some first -> (t < date first)%Z ->
  bisectDate data t 1 = Some 1 /\
  (length data = 1 -> crosshairLookup data t = Some (ArmLast, first)) /\
  (2 <= length data ->
   crosshairLookup data t = Some (ArmNearest, first) /\
   exists d1, data !! 1 = Some d1 /\ (t - date first < 0 < date d1 - t)%Z).
Proof.
  intros Hord Hhead Ht. rewrite head_lookup in Hhead.
  pose proof (lookup_lt_Some _ _ _ Hhead) as Hlen.
  destruct (bisectDate_split data t Hord) as (i & Hb & Hi1 & Hi2 & Hlow & Hhigh); [lia|].
  assert (i = 1) as ->.
  { destruct (decide (i = 1)) as [|Hne]; [assumption|].
    destruct (data !! 1) as [d1|] eqn:H1.
    2:{ apply lookup_ge_None in H1. lia. }
    pose proof (Hlow 1 d1 ltac:(lia) ltac:(lia) H1).
    pose proof (date_ordered_lookup data Hord 0 1 first d1 ltac:(lia) Hhead H1). lia. }
  split; [exact Hb|]. split.
  - intros Hone. apply (crosshairLookup_last data t 1 first Hb); [lia|lia|].
    rewrite Hone. exact Hhead.
  - intros Htwo. destruct (data !! 1) as [d1|] eqn:H1.
    2:{ apply lookup_ge_None in H1. lia. }
    pose proof (date_ordered_lookup data Hord 0 1 first d1 ltac:(lia) Hhead H1).
    rewrite (crosshairLookup_nearest data t 1 first d1 Hb); [|lia|lia|exact Hhead|exact H1].
    destruct (decide (t - date first > date d1 - t)%Z); [lia|].
    split; [reflexivity|]. exists d1. split; [reflexivity|lia].
Qed.

(** A target after the last record's date: the search runs off the end. *)
Lemma crosshairLookup_after_last (data : list OhlcvRecord) (t : Z)
    (lst : OhlcvRecord) :
  date_ordered data = true -> last data = Some lst -> (date lst < t)%Z ->
  crosshairLookup data t = Some (ArmLast, lst).
Proof.
  intros Hord Hlast Ht. rewrite last_lookup in Hlast.
  pose proof (lookup_lt_Some _ _ _ Hlast) as Hlen.
  destruct (bisectDate_split data t Hord) as (i & Hb & Hi1 & Hi2 & Hlow & Hhigh); [lia|].
  assert (i = length data) as ->.
  { destruct (decide (i = length data)) as [|Hne]; [assumption|].
    destruct (data !! i) as [d|] eqn:Hd.
    2:{ apply lookup_ge_None in Hd. lia. }
    pose proof (Hhigh i d ltac:(lia) Hd).
    pose proof (date_ordered_lookup data Hord i (pred (length data)) d lst
                  ltac:(lia) Hd Hlast). lia. }
  apply (crosshairLookup_last data t (length data) lst Hb); [lia|lia|].
  replace (length data - 1) with (pred (length data)) by lia. exact Hlast.
Qed.

(** ** C4: targets outside the series *)

(** C4.  On a non-empty date-ordered series the lookup returns the first
    record for a target before the first date, and the last record for a
    target after the last date. *)
Theorem crosshair_boundary (data : list OhlcvRecord) (t : Z)
    (first lst : OhlcvRecord) :
  date_ordered data = true -> head data = Some first -> last data = Some lst ->
  ((t < date first)%Z -> currentPoint data t = Some first) /\
  ((date lst < t)%Z -> currentPoint data t = Some lst).
Proof.
  intros Hord Hhead Hlast. unfold currentPoint. split; intros Ht.
  - destruct (crosshairLookup_before_first data t first Hord Hhead Ht)
      as (_ & Hone & Htwo).
    rewrite head_lookup in Hhead. pose proof (lookup_lt_Some _ _ _ Hhead) as Hlen.
    destruct (decide (length data = 1)) as [H1|H1].
    + rewrite (Hone H1). reflexivity.
    + destruct Htwo as [-> _]; [lia|reflexivity].
  - rewrite (crosshairLookup_after_last data t lst Hord Hlast Ht). reflexivity.
Qed.

Lemma crosshair_boundary_witness :
  date_ordered sample_series = true /\
  head sample_series = Some sample_0 /\ last sample_series = Some sample_2 /\
  (0 < date sample_0)%Z /\ (date sample_2 < 300000000)%Z /\
  currentPoint sample_series 0 = Some sample_0 /\
  currentPoint sample_series 300000000 = Some sample_2.
Proof.
  assert (Hlo : (0 < date sample_0)%Z) by (simpl; lia).
  assert (Hhi : (date sample_2 < 300000000)%Z) by (simpl; lia).
  do 5 (split; [first [reflexivity | assumption]|]).
  split.
  - exact (proj1 (crosshair_boundary sample_series 0 sample_0 sample_2
                    eq_refl eq_refl eq_refl) Hlo).
  - exact (proj2 (crosshair_boundary sample_series 300000000 sample_0 sample_2
                    eq_refl eq_refl eq_refl) Hhi).
Defined.

(** ** C10: the arm that resolves the lookup *)

(** The index returned by the search is at least 1 and the lookup never
    takes its first arm, whatever the series. *)
Lemma crosshairLookup_never_first (data : list OhlcvRecord) (t : Z) :
  (exists i, bisectDate data t 1 = Some i /\ 1 <= i) /\
  (forall arm p, crosshairLookup data t = Some (arm, p) -> arm <> ArmFirst).
Proof.
  destruct (bisector_left_bounds date data t 1 (length data) (le_n _))
    as (i & Hb & Hi & _).
  split; [exists i; split; assumption|].
  intros arm p. unfold crosshairLookup, bisectDate. rewrite Hb. cbn [mbind option_bind].
  destruct (decide (i = 0)); [lia|].
  destruct (decide (length data <= i)).
  - destruct (data !! (length data - 1)); cbn; [|discriminate].
    intros [= <- _]. discriminate.
  - destruct (data !! (i - 1)); cbn; [|discriminate].
    destruct (data !! i); cbn; [|discriminate].
    intros [= <- _]. discriminate.
Qed.

(** A one-record series sends a target before its date to the last arm,
    not to the distance comparison. *)
Lemma crosshair_arm_counterexample :
  ~ (forall (data : list OhlcvRecord) (t : Z), data <> [] ->
       (exists i, bisectDate data t 1 = Some i /\ 1 <= i) /\
       (forall arm p, crosshairLookup data t = Some (arm, p) -> arm <> ArmFirst) /\
       (forall first, head data = Some first -> (t < date first)%Z ->
          crosshairLookup data t = Some (ArmNearest, first))).
Proof.
  intros H.
  destruct (H [sample_0] 0%Z ltac:(discriminate)) as (_ & _ & Harm).
  specialize (Harm sample_0 eq_refl ltac:(simpl; lia)).
  vm_compute in Harm. discriminate Harm.
Qed.

(** On a series that is not ordered by date a target before the first date
    need not resolve to the first record. *)
Example crosshair_unordered_series :
  let data := [mkOhlcv 10 1 1 1 1 None; mkOhlcv 1 1 1 1 1 None; mkOhlcv 2 1 1 1 1 None] in
  date_ordered data = false /\
  crosshairLookup data 5 = Some (ArmLast, mkOhlcv 2 1 1 1 1 None).
Proof. split; reflexivity. Qed.

(** C10, amended.  For every series and target the search, called with
    lower bound 1, returns an index of at least 1 and the first arm of the
    lookup is never taken.  On a date-ordered series a target before the
    first record's date resolves to the first record: by the distance
    comparison (a negative left distance against a positive right one) when
    the series has two records or more, by the last arm when it has one. *)
Theorem crosshair_arm (data : list OhlcvRecord) (t : Z) :
  (exists i, bisectDate data t 1 = Some i /\ 1 <= i) /\
  (forall arm p, crosshairLookup data t = Some (arm, p) -> arm <> ArmFirst) /\
  (forall first,
     date_ordered data = true -> head data = Some first -> (t < date first)%Z ->
     (2 <= length data ->
      crosshairLookup data t = Some (ArmNearest, first) /\
      exists d1, data !! 1 = Some d1 /\ (t - date first < 0 < date d1 - t)%Z) /\
     (length data = 1 -> crosshairLookup data t = Some (ArmLast, first))).
Proof.
  destruct (crosshairLookup_never_first data t) as [Hidx Harm].
  split; [exact Hidx|]. split; [exact Harm|].
  intros first Hord Hhead Ht.
  destruct (crosshairLookup_before_first data t first Hord Hhead Ht)
    as (_ & Hone & Htwo).
  split; assumption.
Qed.

Lemma crosshair_arm_witness :
  date_ordered sample_series = true /\ head sample_series = Some sample_0 /\
  (0 < date sample_0)%Z /\ 2 <= length sample_series /\
  crosshairLookup sample_series 0 = Some (ArmNearest, sample_0).
Proof.
  assert (Hlo : (0 < date sample_0)%Z) by (simpl; lia).
  assert (Hlen : 2 <= length sample_series) by (simpl; lia).
  do 4 (split; [first [reflexivity | assumption]|]).
  exact (proj1 (proj1 (proj2 (proj2 (crosshair_arm sample_series 0))
                         sample_0 eq_refl eq_refl Hlo) Hlen)).
Defined.

(** ** C3: the colours of the volume bars *)

Lemma gt_true_iff (x y : Q) : Js.gt x y = true <-> (y < x)%Q.
Proof.
  unfold Js.gt. rewrite negb_true_iff. split.
  - intros H. apply Qnot_le_lt. intros Hle. apply Qle_bool_iff in Hle. congruence.
  - intros H. destruct (Qle_bool x y) eqn:E; [|reflexivity].
    apply Qle_bool_iff in E. exfalso. exact (Qlt_not_le _ _ H E).
Qed.

Lemma gt_false_iff (x y : Q) : Js.gt x y = false <-> (x <= y)%Q.
Proof.
  unfold Js.gt. rewrite negb_false_iff. apply Qle_bool_iff.
Qed.

Lemma has_volume_iff (d : OhlcvRecord) :
  has_volume d = true <-> exists v, volume d = Some v /\ ~ (v == 0)%Q.
Proof.
  unfold has_volume. destruct (volume d) as [v|].
  - rewrite negb_true_iff. split.
    + intros H. exists v. split; [reflexivity|].
      intros Hz. apply Qeq_bool_iff in Hz. congruence.
    + intros (v' & [= <-] & Hnz). destruct (Qeq_bool v 0) eqn:E; [|reflexivity].
      apply Qeq_bool_iff in E. contradiction.
  - split; [discriminate|]. intros (v & Hv & _). discriminate.
Qed.

Lemma volData_sublist (data : list OhlcvRecord) : sublist (volData data) data.
Proof.
  unfold volData. induction data as [|d data IH]; simpl.
  - constructor.
  - destruct (has_volume d); [apply sublist_skip|apply sublist_cons]; exact IH.
Qed.

Lemma volData_elem (data : list OhlcvRecord) (d : OhlcvRecord) :
  d ∈ volData data <->
  d ∈ data /\ exists v, volume d = Some v /\ ~ (v == 0)%Q.
Proof.
  unfold volData. rewrite !list_elem_of_In, filter_In, has_volume_iff. reflexivity.
Qed.

Lemma volBars_fill (win : Window) (data : list OhlcvRecord) :
  rect_fill <$> volBars win data = volFills data.
Proof.
  apply list_eq. intros i. unfold volBars, volFills.
  rewrite list_lookup_fmap, !list_lookup_imap.
  destruct (volData data !! i); reflexivity.
Qed.

(** C3.  The bars are drawn for the records with a non-null, non-zero
    volume, in series order.  Bar 0 is given the rising colour; bar [i > 0]
    is given the falling colour exactly when the close of the previous
    record of that filtered sequence is above its own close, and the rising
    colour otherwise; no third colour is used. *)
Theorem volume_fill_spec (win : Window) (data : list OhlcvRecord) :
  sublist (volData data) data /\
  (forall d, d ∈ volData data <->
             d ∈ data /\ exists v, volume d = Some v /\ ~ (v == 0)%Q) /\
  rect_fill <$> volBars win data = volFills data /\
  length (volFills data) = length (volData data) /\
  (forall d, volData data !! 0 = Some d ->
             volFills data !! 0 = Some (Some rising)) /\
  (forall i prev d,
     0 < i -> volData data !! (i - 1) = Some prev -> volData data !! i = Some d ->
     exists c, volFills data !! i = Some (Some c) /\
       (c = falling <-> (close d < close prev)%Q) /\
       (c = rising <-> (close prev <= close d)%Q)) /\
  (forall c, c ∈ volFills data -> c = Some rising \/ c = Some falling) /\
  rising <> falling.
Proof.
  split; [apply volData_sublist|]. split; [apply volData_elem|].
  split; [apply volBars_fill|]. split; [apply length_imap|].
  assert (Hne : rising <> falling) by discriminate.
  split; [|split; [|split; [|exact Hne]]].
  - intros d Hd. unfold volFills. rewrite list_lookup_imap, Hd. reflexivity.
  - intros i prev d Hi Hprev Hd. unfold volFills.
    rewrite list_lookup_imap, Hd. cbn [fmap option_fmap option_map]. unfold fill.
    destruct (decide (i = 0)); [lia|]. rewrite Hprev. cbn [mbind option_bind].
    destruct (Js.gt (close prev) (close d)) eqn:E.
    + apply gt_true_iff in E. exists falling. split; [reflexivity|]. split.
      * split; [intros _; exact E|reflexivity].
      * split; [intros Heq; congruence|].
        intros Hle. exfalso. exact (Qlt_not_le _ _ E Hle).
    + apply gt_false_iff in E. exists rising. split; [reflexivity|]. split.
      * split; [intros Heq; congruence|].
        intros Hlt. exfalso. exact (Qlt_not_le _ _ Hlt E).
      * split; [intros _; exact E|reflexivity].
  - intros c Hc. unfold volFills in Hc.
    apply elem_of_lookup_imap in Hc as (i & d & -> & Hd). unfold fill.
    destruct (decide (i = 0)); [left; reflexivity|].
    destruct (volData data !! (i - 1)) as [prev|] eqn:Hprev.
    + cbn [mbind option_bind]. destruct (Js.gt (close prev) (close d)); auto.
    + apply lookup_ge_None in Hprev. apply lookup_lt_Some in Hd. lia.
Qed.

(** The worked example of the specification: closes 10, 12, 8 with volumes
    100, 200, 150 are coloured rising, rising, falling. *)
Example volFills_sample :
  volFills sample_series = [Some rising; Some rising; Some falling].
Proof. reflexivity. Qed.

(** A record without volume between two bars is skipped by the comparison:
    the bar of 9 is compared with the bar of 10, not with the 7 between. *)
Example volFills_gap :
  volFills [ mkOhlcv 1 10 10 10 10 (Some 5%Q); mkOhlcv 2 7 7 7 7 (Some 0%Q);
             mkOhlcv 3 8 8 8 8 None; mkOhlcv 4 9 9 9 9 (Some 6%Q) ]
  = [Some rising; Some falling].
Proof. reflexivity. Qed.

(** ** Extrema *)

Section Extrema.

Context {K : Type} (lt : K -> K -> bool) (le : K -> K -> Prop).
Hypothesis le_refl : forall a, le a a.
Hypothesis le_trans : forall a b c, le a b -> le b c -> le a c.
Hypothesis lt_true : forall a b, lt a b = true -> le a b.
Hypothesis lt_false : forall a b, lt a b = false -> le b a.

Lemma min_fold (l : list K) (m0 : K) :
  exists m,
    fold_left (fun m value =>
                 match m with
                 | None => Some value
                 | Some m' => if lt value m' then Some value else m
                 end) l (Some m0) = Some m /\
    (m = m0 \/ m ∈ l) /\ le m m0 /\ forall v, v ∈ l -> le m v.
Proof.
  revert m0. induction l as [|x l IH]; intros m0; simpl.
  - exists m0. split; [reflexivity|]. split; [left; reflexivity|].
    split; [apply le_refl|]. intros v Hv. inversion Hv.
  - destruct (lt x m0) eqn:E.
    + destruct (IH x) as (m & Hm & Hin & Hle & Hall). exists m.
      split; [exact Hm|]. split.
      { right. destruct Hin as [->|Hin]; [left|right; exact Hin]. }
      split; [apply (le_trans _ x); [exact Hle|apply lt_true, E]|].
      intros v Hv. apply elem_of_cons in Hv as [->|Hv]; [exact Hle|apply Hall, Hv].
    + destruct (IH m0) as (m & Hm & Hin & Hle & Hall). exists m.
      split; [exact Hm|]. split.
      { destruct Hin as [->|Hin]; [left; reflexivity|right; right; exact Hin]. }
      split; [exact Hle|].
      intros v Hv. apply elem_of_cons in Hv as [->|Hv]; [|apply Hall, Hv].
      apply (le_trans _ m0); [exact Hle|apply lt_false, E].
Qed.

Lemma max_fold (l : list K) (m0 : K) :
  exists m,
    fold_left (fun m value =>
                 match m with
                 | None => Some value
                 | Some m' => if lt m' value then Some value else m
                 end) l (Some m0) = Some m /\
    (m = m0 \/ m ∈ l) /\ le m0 m /\ forall v, v ∈ l -> le v m.
Proof.
  revert m0. induction l as [|x l IH]; intros m0; simpl.
  - exists m0. split; [reflexivity|]. split; [left; reflexivity|].
    split; [apply le_refl|]. intros v Hv. inversion Hv.
  - destruct (lt m0 x) eqn:E.
    + destruct (IH x) as (m & Hm & Hin & Hle & Hall). exists m.
      split; [exact Hm|]. split.
      { right. destruct Hin as [->|Hin]; [left|right; exact Hin]. }
      split; [apply (le_trans _ x); [apply lt_true, E|exact Hle]|].
      intros v Hv. apply elem_of_cons in Hv as [->|Hv]; [exact Hle|apply Hall, Hv].
    + destruct (IH m0) as (m & Hm & Hin & Hle & Hall). exists m.
      split; [exact Hm|]. split.
      { destruct Hin as [->|Hin]; [left; reflexivity|right; right; exact Hin]. }
      split; [exact Hle|].
      intros v Hv. apply elem_of_cons in Hv as [->|Hv]; [|apply Hall, Hv].
      apply (le_trans _ m0); [apply lt_false, E|exact Hle].
Qed.

(** [d3.min] of a non-empty array is its lowest value. *)
Lemma min_lowest (l : list K) :
  l <> [] -> exists m, D3.min lt l = Some m /\ lowest le m l.
Proof.
  destruct l as [|x l]; [congruence|]. intros _. unfold D3.min. simpl.
  destruct (min_fold l x) as (m & Hm & Hin & Hle & Hall). exists m.
  split; [exact Hm|]. split.
  - destruct Hin as [->|Hin]; [left|right; exact Hin].
  - intros v Hv. apply elem_of_cons in Hv as [->|Hv]; [exact Hle|apply Hall, Hv].
Qed.

(** [d3.max] of a non-empty array is its highest value. *)
Lemma max_highest (l : list K) :
  l <> [] -> exists m, D3.max lt l = Some m /\ highest le m l.
Proof.
  destruct l as [|x l]; [congruence|]. intros _. unfold D3.max. simpl.
  destruct (max_fold l x) as (m & Hm & Hin & Hle & Hall). exists m.
  split; [exact Hm|]. split.
  - destruct Hin as [->|Hin]; [left|right; exact Hin].
  - intros v Hv. apply elem_of_cons in Hv as [->|Hv]; [exact Hle|apply Hall, Hv].
Qed.

End Extrema.

Lemma Qgt_flip_true (a b : Q) : Js.gt b a = true -> (a <= b)%Q.
Proof. intros H. apply gt_true_iff in H. apply Qlt_le_weak, H. Qed.

Lemma Qgt_flip_false (a b : Q) : Js.gt b a = false -> (b <= a)%Q.
Proof. intros H. apply gt_false_iff in H. exact H. Qed.

Lemma Zltb_true (a b : Z) : (a <? b)%Z = true -> (a <= b)%Z.
Proof. intros H. apply Z.ltb_lt in H. lia. Qed.

Lemma Zltb_false (a b : Z) : (a <? b)%Z = false -> (b <= a)%Z.
Proof. intros H. apply Z.ltb_ge in H. exact H. Qed.

Lemma fmap_nonempty {A B : Type} (g : A -> B) (l : list A) :
  l <> [] -> g <$> l <> [].
Proof. destruct l; [congruence|discriminate]. Qed.

(** The bounds of the time domain and of the price domain of a non-empty
    series. *)
Lemma xMin_lowest (data : list OhlcvRecord) :
  data <> [] -> exists m, xMin data = Some m /\ lowest Z.le m (date <$> data).
Proof.
  intros H. apply (min_lowest Z.ltb Z.le Z.le_refl Z.le_trans Zltb_true Zltb_false).
  apply fmap_nonempty, H.
Qed.

Lemma xMax_highest (data : list OhlcvRecord) :
  data <> [] -> exists m, xMax data = Some m /\ highest Z.le m (date <$> data).
Proof.
  intros H. apply (max_highest Z.ltb Z.le Z.le_refl Z.le_trans Zltb_true Zltb_false).
  apply fmap_nonempty, H.
Qed.

Lemma yMin_lowest (data : list OhlcvRecord) :
  data <> [] -> exists m, yMin data = Some m /\ lowest Qle m (close <$> data).
Proof.
  intros H.
  apply (min_lowest _ Qle Qle_refl Qle_trans Qgt_flip_true Qgt_flip_false).
  apply fmap_nonempty, H.
Qed.

Lemma yMax_highest (data : list OhlcvRecord) :
  data <> [] -> exists m, yMax data = Some m /\ highest Qle m (close <$> data).
Proof.
  intros H.
  apply (max_highest _ Qle Qle_refl Qle_trans Qgt_flip_true Qgt_flip_false).
  apply fmap_nonempty, H.
Qed.

(** ** Scale application *)

Lemma Qeq_bool_false (a : Q) : ~ (a == 0)%Q -> Qeq_bool a 0 = false.
Proof.
  intros H. destruct (Qeq_bool a 0) eqn:E; [|reflexivity].
  apply Qeq_bool_iff in E. contradiction.
Qed.

Lemma Qeq_bool_true (a : Q) : (a == 0)%Q -> Qeq_bool a 0 = true.
Proof. apply Qeq_bool_iff. Qed.

(** On a domain of positive width the scale is the affine map that sends
    the domain onto the range. *)
Lemma apply_affine (s : D3.Continuous) (d0 d1 x : Q) :
  D3.domain s = (Some d0, Some d1) -> (d0 < d1)%Q ->
  exists y, D3.apply s x = Some y /\
    (y == (D3.range s).1 + (x - d0) / (d1 - d0) * ((D3.range s).2 - (D3.range s).1))%Q.
Proof.
  intros Hdom Hlt. unfold D3.apply. rewrite Hdom.
  eexists. split; [reflexivity|].
  unfold D3.bimap.
  rewrite (proj2 (gt_false_iff d0 d1)) by (apply Qlt_le_weak, Hlt).
  unfold D3.normalize, D3.interpolateNumber.
  assert (Hnz : ~ (d1 - d0 == 0)%Q) by lra.
  rewrite (Qeq_bool_false _ Hnz). field. exact Hnz.
Qed.

(** On a domain of zero width the scale sends every value to the middle of
    the range. *)
Lemma apply_collapsed (s : D3.Continuous) (d0 d1 x : Q) :
  D3.domain s = (Some d0, Some d1) -> (d0 == d1)%Q ->
  exists y, D3.apply s x = Some y /\
    (y == ((D3.range s).1 + (D3.range s).2) / 2)%Q.
Proof.
  intros Hdom Heq. unfold D3.apply. rewrite Hdom.
  eexists. split; [reflexivity|].
  unfold D3.bimap.
  rewrite (proj2 (gt_false_iff d0 d1)) by lra.
  unfold D3.normalize, D3.interpolateNumber.
  assert (Hz : (d1 - d0 == 0)%Q) by lra.
  rewrite (Qeq_bool_true _ Hz). field.
Qed.

(** The numbers [d3.min] and [d3.max] see for the volume domain are the
    non-null, non-zero volumes of the series. *)
Lemma volData_volumes (data : list OhlcvRecord) :
  (fun d => Js.to_number (volume d)) <$> volData data = nonzero_volumes data.
Proof.
  unfold volData, nonzero_volumes.
  induction data as [|d data IH]; [reflexivity|].
  cbn [List.filter omap list_omap]. unfold has_volume at 1.
  destruct (volume d) as [v|] eqn:Hv; [|exact IH].
  cbn [List.filter]. destruct (negb (Qeq_bool v 0)); [|exact IH].
  cbn [fmap list_fmap]. rewrite Hv, <- IH. reflexivity.
Qed.

Lemma yVolume_domain (data : list OhlcvRecord) :
  nonzero_volumes data <> [] ->
  exists v0 v1, yMinVolume data = Some v0 /\ yMaxVolume data = Some v1 /\
    lowest Qle v0 (nonzero_volumes data) /\ highest Qle v1 (nonzero_volumes data).
Proof.
  intros H. unfold yMinVolume, yMaxVolume. rewrite volData_volumes.
  destruct (min_lowest _ Qle Qle_refl Qle_trans Qgt_flip_true Qgt_flip_false _ H)
    as (v0 & Hv0 & Hlow).
  destruct (max_highest _ Qle Qle_refl Qle_trans Qgt_flip_true Qgt_flip_false _ H)
    as (v1 & Hv1 & Hhigh).
  exists v0, v1. repeat split; first [assumption | apply Hlow | apply Hhigh].
Qed.

(** ** C5: the derived scales *)

(** C5.  For a non-empty series the time domain runs from the lowest to the
    highest date, the price domain from the lowest close minus 5 to the
    highest close, and the volume domain from the lowest to the highest of
    the non-null, non-zero volumes; the volume scale maps its domain
    linearly onto the pixel range from [height] to [height * 0.75], a domain
    of one value onto the middle of that range. *)
Theorem scales_spec (win : Window) (data : list OhlcvRecord) :
  data <> [] ->
  (exists x0 x1,
     D3.domain (xScale win data) = (Some (inject_Z x0), Some (inject_Z x1)) /\
     lowest Z.le x0 (date <$> data) /\ highest Z.le x1 (date <$> data)) /\
  (exists y0 y1,
     D3.domain (yScale win data) = (Some (y0 - 5)%Q, Some y1) /\
     lowest Qle y0 (close <$> data) /\ highest Qle y1 (close <$> data)) /\
  ((D3.range (yVolumeScale win data)).1 = height win /\
   ((D3.range (yVolumeScale win data)).2 == height win * 0.75)%Q) /\
  (nonzero_volumes data <> [] ->
   exists v0 v1,
     D3.domain (yVolumeScale win data) = (Some v0, Some v1) /\
     lowest Qle v0 (nonzero_volumes data) /\
     highest Qle v1 (nonzero_volumes data) /\
     ((v0 < v1)%Q ->
      forall v, exists y,
        D3.apply (yVolumeScale win data) v = Some y /\
        (y == height win +
              (v - v0) / (v1 - v0) * (height win * 0.75 - height win))%Q) /\
     ((v0 == v1)%Q ->
      forall v, exists y,
        D3.apply (yVolumeScale win data) v = Some y /\
        (y == (height win + height win * 0.75) / 2)%Q)) /\
  (nonzero_volumes data = [] ->
   D3.domain (yVolumeScale win data) = (None, None)).
Proof.
  intros Hne. split; [|split; [|split; [|split]]].
  - destruct (xMin_lowest data Hne) as (x0 & H0 & Hlow).
    destruct (xMax_highest data Hne) as (x1 & H1 & Hhigh).
    exists x0, x1. unfold xScale. cbn [D3.domain]. rewrite H0, H1.
    split; [reflexivity|]. split; assumption.
  - destruct (yMin_lowest data Hne) as (y0 & H0 & Hlow).
    destruct (yMax_highest data Hne) as (y1 & H1 & Hhigh).
    exists y0, y1. unfold yScale. cbn [D3.domain]. rewrite H0, H1.
    split; [reflexivity|]. split; assumption.
  - split; [reflexivity|]. cbn [yVolumeScale D3.range snd]. field.
  - intros Hvol.
    destruct (yVolume_domain data Hvol) as (v0 & v1 & H0 & H1 & Hlow & Hhigh).
    exists v0, v1.
    assert (Hdom : D3.domain (yVolumeScale win data) = (Some v0, Some v1)).
    { unfold yVolumeScale. cbn [D3.domain]. rewrite H0, H1. reflexivity. }
    split; [exact Hdom|]. split; [exact Hlow|]. split; [exact Hhigh|]. split.
    + intros Hlt v.
      destruct (apply_affine _ v0 v1 v Hdom Hlt) as (y & Hy & Heq).
      exists y. split; [exact Hy|]. rewrite Heq.
      cbn [yVolumeScale D3.range fst snd]. field. lra.
    + intros Hsame v.
      destruct (apply_collapsed _ v0 v1 v Hdom Hsame) as (y & Hy & Heq).
      exists y. split; [exact Hy|]. rewrite Heq.
      cbn [yVolumeScale D3.range fst snd]. field.
  - intros Hnone. unfold yVolumeScale, yMinVolume, yMaxVolume. cbn [D3.domain].
    rewrite volData_volumes, Hnone. reflexivity.
Qed.

Lemma scales_spec_witness :
  sample_series <> [] /\ nonzero_volumes sample_series <> [] /\
  exists v0 v1,
    D3.domain (yVolumeScale sample_window sample_series) = (Some v0, Some v1) /\
    lowest Qle v0 (nonzero_volumes sample_series) /\
    highest Qle v1 (nonzero_volumes sample_series) /\
    ((v0 < v1)%Q ->
     forall v, exists y,
       D3.apply (yVolumeScale sample_window sample_series) v = Some y /\
       (y == height sample_window +
             (v - v0) / (v1 - v0) *
             (height sample_window * 0.75 - height sample_window))%Q) /\
    ((v0 == v1)%Q ->
     forall v, exists y,
       D3.apply (yVolumeScale sample_window sample_series) v = Some y /\
       (y == (height sample_window + height sample_window * 0.75) / 2)%Q).
Proof.
  assert (Hne : sample_series <> []) by discriminate.
  assert (Hvol : nonzero_volumes sample_series <> []) by discriminate.
  split; [exact Hne|]. split; [exact Hvol|].
  exact (proj1 (proj2 (proj2 (proj2 (scales_spec sample_window sample_series Hne))))
           Hvol).
Defined.

(** The domains of the worked example: dates from day 1 to day 3, prices
    from 8 - 5 to 12, volumes from 100 to 200. *)
Example scales_sample :
  D3.domain (xScale sample_window sample_series)
    = (Some (inject_Z 86400000), Some (inject_Z 259200000)) /\
  D3.domain (yScale sample_window sample_series) = (Some (8 - 5)%Q, Some 12%Q) /\
  D3.domain (yVolumeScale sample_window sample_series) = (Some 100%Q, Some 200%Q).
Proof. repeat split. Qed.

(** A series none of whose records has a volume leaves the volume domain
    undefined, and every bar position with it. *)
Example volume_domain_undefined :
  D3.domain (yVolumeScale sample_window [mkOhlcv 1 10 10 10 10 None])
    = (None, None).
Proof. reflexivity. Qed.

(** ** C8: degenerate domains *)



(** That series is drawn at half the height of the plot. *)
Example price_domain_collapsed_f64 :
  F64.yDomain [0x1p60%float] = (Some 0x1p60%float, Some 0x1p60%float) /\
  F64.yScale 600 [0x1p60%float] 0x1p60 = Some 300%float.
Proof. split; vm_compute; reflexivity. Qed.

(** A close of ordinary size keeps its padding in doubles. *)
Example price_domain_padded_f64 :
  F64.yDomain [10%float; 12%float; 8%float] = (Some 3%float, Some 12%float).
Proof. vm_compute. reflexivity. Qed.



(** A one-record series: both domains have collapsed to a point, the price
    domain is still 5 wide and the time scale draws the record in the
    middle of the plot. *)
Example scales_single_record :
  D3.domain (yScale sample_window [sample_0]) = (Some (10 - 5)%Q, Some 10%Q) /\
  D3.domain (xScale sample_window [sample_0])
    = (Some (inject_Z 86400000), Some (inject_Z 86400000)) /\
  exists px, D3.apply (xScale sample_window [sample_0]) (inject_Z 86400000) = Some px /\
             (px == width sample_window / 2)%Q.
Proof.
  split; [reflexivity|]. split; [reflexivity|].
  eexists. split; [reflexivity|]. vm_compute. reflexivity.
Qed.

(** ** The render entry point *)

(** [responsivefy] registers under the same typename for every instance:
    the container has no [id] attribute. *)
Lemma responsivefy_key (inst : nat) (table : gmap string nat) :
  responsivefy inst table = <["resize.null"%string := inst]> table.
Proof. reflexivity. Qed.

(** After [renderChart] the container of the instance holds exactly the
    [svg] just built, whatever it held before. *)
Lemma renderChart_svgs (win : Window) (inst : nat) (data : list OhlcvRecord)
    (page : Page) :
  svgs_of (charts (renderChart win inst data page)) inst =
    [ {| svg_xScale := xScale win data;
         svg_yScale := yScale win data;
         svg_priceChart := data;
         svg_movingAverageLine := movingAverage data 49;
         svg_vol := volBars win data |} ].
Proof.
  unfold renderChart, svgs_of. cbn [charts].
  rewrite !lookup_insert_eq. reflexivity.
Qed.

Lemma useEffect_render (win : Window) (inst : nat) (data : list OhlcvRecord)
    (page : Page) :
  data <> [] ->
  useEffect win inst (Some data) page = renderChart win inst data page.
Proof.
  intros Hne. unfold useEffect.
  destruct (decide (0 < length data)) as [_|Hlen]; [reflexivity|].
  destruct data; [congruence|simpl in Hlen; lia].
Qed.

(** ** C6: no data *)

(** After a render, an update without data does not produce an empty chart:
    the drawing of the earlier data is still in the container. *)
Lemma useEffect_no_data_counterexample :
  ~ (forall (win : Window) (inst : nat) (props_data : option (list OhlcvRecord))
            (page : Page),
       props_data = None \/ props_data = Some [] ->
       useEffect win inst props_data page = page /\
       svgs_of (charts (useEffect win inst props_data page)) inst = []).
Proof.
  intros H.
  destruct (H sample_window 0 None
              (useEffect sample_window 0 (Some sample_series) empty_page)
              (or_introl eq_refl)) as [_ Hempty].
  rewrite (useEffect_render sample_window 0 sample_series empty_page) in Hempty
    by discriminate.
  cbn [useEffect] in Hempty. rewrite renderChart_svgs in Hempty. discriminate Hempty.
Qed.

(** C6, amended.  When [props.data] is null or an empty array the effect
    draws nothing, registers nothing and raises nothing: it returns the page
    as it was.  A chart that was never rendered so stays empty, and a chart
    that was rendered before keeps the drawing of its earlier data and its
    resize listener. *)
Theorem useEffect_no_data_noop (win : Window) (inst : nat)
    (props_data : option (list OhlcvRecord)) (page : Page) :
  props_data = None \/ props_data = Some [] ->
  useEffect win inst props_data page = page /\
  (svgs_of (charts (useEffect win inst props_data empty_page)) inst = [] /\
   listeners (useEffect win inst props_data empty_page) = ∅) /\
  (forall win' data, data <> [] ->
     svgs_of (charts (useEffect win inst props_data
                        (useEffect win' inst (Some data) page))) inst =
       [ {| svg_xScale := xScale win' data;
            svg_yScale := yScale win' data;
            svg_priceChart := data;
            svg_movingAverageLine := movingAverage data 49;
            svg_vol := volBars win' data |} ] /\
     listeners (useEffect win inst props_data
                  (useEffect win' inst (Some data) page)) !! "resize.null"%string
       = Some inst).
Proof.
  intros Hno.
  assert (Hnoop : forall pg, useEffect win inst props_data pg = pg).
  { intros pg. destruct Hno as [-> | ->]; reflexivity. }
  split; [apply Hnoop|]. split.
  - rewrite Hnoop. split; reflexivity.
  - intros win' data Hne. rewrite Hnoop, (useEffect_render win' inst data page Hne).
    split; [apply renderChart_svgs|].
    unfold renderChart. cbn [listeners]. rewrite responsivefy_key.
    apply lookup_insert_eq.
Qed.

Lemma useEffect_no_data_noop_witness :
  (@None (list OhlcvRecord) = None \/ @None (list OhlcvRecord) = Some []) /\
  (Some (@nil OhlcvRecord) = None \/ Some (@nil OhlcvRecord) = Some []) /\
  useEffect sample_window 0 None empty_page = empty_page /\
  useEffect sample_window 0 (Some [])
    (useEffect sample_window 0 (Some sample_series) empty_page)
  = useEffect sample_window 0 (Some sample_series) empty_page.
Proof.
  split; [left; reflexivity|]. split; [right; reflexivity|]. split.
  - exact (proj1 (useEffect_no_data_noop sample_window 0 None empty_page
                    (or_introl eq_refl))).
  - exact (proj1 (useEffect_no_data_noop sample_window 0 (Some [])
                    (useEffect sample_window 0 (Some sample_series) empty_page)
                    (or_intror eq_refl))).
Defined.

(** ** C7: the window of the rendered overlay *)

(** C7.  The overlay of a rendered chart is [movingAverage] with a lookback
    of 49: the average plotted at index [i] is the mean of [close] over the
    indices [max(0, i - 49) .. i], which are 50 once [i >= 49] and fewer
    before. *)
Theorem rendered_movingAverage_window (win : Window) (inst : nat)
    (data : list OhlcvRecord) (page : Page) (i : nat) (row : OhlcvRecord) :
  data !! i = Some row ->
  exists svg p a,
    svgs_of (charts (useEffect win inst (Some data) page)) inst = [svg] /\
    svg_movingAverageLine svg = movingAverage data 49 /\
    svg_movingAverageLine svg !! i = Some p /\
    ma_date p = date row /\ average p = Some a /\
    (a == window_mean data (i - 49) i)%Q /\
    S i - (i - 49) <= 50 /\ (49 <= i -> S i - (i - 49) = 50).
Proof.
  intros Hrow.
  assert (Hne : data <> []) by (intros ->; discriminate).
  rewrite (useEffect_render win inst data page Hne), renderChart_svgs.
  destruct (movingAverage_lookup data 49 i row ltac:(lia) Hrow)
    as (p & a & Hp & Hd & Ha & Hmean).
  eexists _, p, a. split; [reflexivity|]. cbn [svg_movingAverageLine].
  split; [reflexivity|]. split; [exact Hp|]. split; [exact Hd|]. split; [exact Ha|].
  split; [|lia].
  rewrite Hmean. unfold window_start.
  replace (Z.to_nat (Z.max 0 (Z.of_nat i - 49))) with (i - 49) by lia. reflexivity.
Qed.

Lemma rendered_movingAverage_window_witness :
  sample_series !! 2 = Some sample_2 /\
  exists svg p a,
    svgs_of (charts (useEffect sample_window 0 (Some sample_series) empty_page)) 0
      = [svg] /\
    svg_movingAverageLine svg = movingAverage sample_series 49 /\
    svg_movingAverageLine svg !! 2 = Some p /\
    ma_date p = date sample_2 /\ average p = Some a /\
    (a == window_mean sample_series (2 - 49) 2)%Q /\
    3 - (2 - 49) <= 50 /\ (49 <= 2 -> 3 - (2 - 49) = 50).
Proof.
  split; [reflexivity|].
  exact (rendered_movingAverage_window sample_window 0 sample_series empty_page
           2 sample_2 eq_refl).
Defined.

(** ** C9: the resize listener *)

(** Rendering the same chart again replaces its listener. *)
Lemma responsivefy_again (inst : nat) (table : gmap string nat) :
  responsivefy inst (responsivefy inst table) = responsivefy inst table.
Proof. rewrite !responsivefy_key. apply insert_insert_eq. Qed.

(** C9, as the code behaves.  Two charts rendered on one page register
    their resize listeners under the same typename, ["resize.null"]: the
    second registration replaces the first, and the first chart is left
    without a listener. *)
Theorem resize_listener_overwritten (win : Window) (a b : nat)
    (data_a data_b : list OhlcvRecord) :
  a <> b -> data_a <> [] -> data_b <> [] ->
  let page := useEffect win b (Some data_b) (useEffect win a (Some data_a) empty_page) in
  listeners page = {[ "resize.null"%string := b ]} /\
  (forall typename, listeners page !! typename <> Some a) /\
  svgs_of (charts page) a <> [] /\ svgs_of (charts page) b <> [].
Proof.
  intros Hab Ha Hb page. subst page.
  rewrite (useEffect_render win b data_b _ Hb), (useEffect_render win a data_a _ Ha).
  assert (Hl : listeners (renderChart win b data_b (renderChart win a data_a empty_page))
               = {[ "resize.null"%string := b ]}).
  { unfold renderChart, empty_page. cbn [listeners].
    rewrite (responsivefy_key b), (responsivefy_key a).
    rewrite insert_insert_eq. apply insert_empty. }
  split; [exact Hl|]. split; [|split].
  - intros typename. rewrite Hl. intros H.
    apply lookup_singleton_Some in H as [_ H]. congruence.
  - unfold renderChart at 1. unfold svgs_of at 1. cbn [charts].
    rewrite !lookup_insert_ne by congruence.
    fold (svgs_of (charts (renderChart win a data_a empty_page)) a).
    rewrite renderChart_svgs. discriminate.
  - rewrite renderChart_svgs. discriminate.
Qed.

Lemma resize_listener_overwritten_witness :
  0 <> 1 /\ sample_series <> [] /\
  listeners (useEffect sample_window 1 (Some sample_series)
               (useEffect sample_window 0 (Some sample_series) empty_page))
    = {[ "resize.null"%string := 1 ]}.
Proof.
  assert (H01 : 0 <> 1) by discriminate.
  assert (Hne : sample_series <> []) by discriminate.
  split; [exact H01|]. split; [exact Hne|].
  exact (proj1 (resize_listener_overwritten sample_window 0 1 sample_series
                  sample_series H01 Hne Hne)).
Defined.

(** * Further properties of the component *)

(** ** movingAverage at its edges *)

Lemma slice_empty {A : Type} (l : list A) (start final : Z) :
  (0 <= final <= start)%Z -> Js.slice l start final = [].
Proof.
  intros H. unfold Js.slice.
  destruct (decide (start < 0)%Z); [lia|]. destruct (decide (final < 0)%Z); [lia|].
  replace (Z.to_nat (Z.max (Z.min final (Z.of_nat (length l)) -
                            Z.min start (Z.of_nat (length l))) 0)) with 0 by lia.
  reflexivity.
Qed.

(** A negative lookback leaves every window empty, so every average is the
    quotient 0/0: the overlay has no drawable point. *)
Theorem movingAverage_negative_lookback_undefined (data : list OhlcvRecord)
    (w : Z) (i : nat) (p : MovingAveragePoint) :
  (w < 0)%Z -> movingAverage data w !! i = Some p -> average p = None.
Proof.
  intros Hw Hp. unfold movingAverage in Hp.
  apply list_lookup_imap_Some in Hp as (row & _ & ->). cbn [average].
  rewrite slice_empty by lia. reflexivity.
Qed.

Lemma movingAverage_negative_lookback_undefined_witness :
  (-1 < 0)%Z /\
  movingAverage sample_series (-1) !! 1 =
    Some {| ma_date := date sample_1; average := None |} /\
  average {| ma_date := date sample_1; average := None |} = None.
Proof.
  assert (Hw : (-1 < 0)%Z) by lia.
  assert (Hp : movingAverage sample_series (-1) !! 1 =
               Some {| ma_date := date sample_1; average := None |}) by reflexivity.
  split; [exact Hw|]. split; [exact Hp|].
  exact (movingAverage_negative_lookback_undefined sample_series (-1) 1 _ Hw Hp).
Defined.

(** With a lookback of 0 the window of a record is the record itself: the
    overlay repeats the closes. *)
Theorem movingAverage_zero_lookback (data : list OhlcvRecord) (i : nat)
    (row : OhlcvRecord) :
  data !! i = Some row ->
  exists a,
    movingAverage data 0 !! i = Some {| ma_date := date row; average := Some a |} /\
    (a == close row)%Q.
Proof.
  intros Hrow.
  destruct (movingAverage_lookup data 0 i row ltac:(lia) Hrow)
    as (p & a & Hp & Hd & Ha & Hmean).
  exists a. split.
  - rewrite Hp. destruct p as [pd pa]. cbn in Hd, Ha. subst. reflexivity.
  - rewrite Hmean. unfold window_start, window_mean.
    replace (Z.to_nat (Z.max 0 (Z.of_nat i - 0))) with i by lia.
    replace (S i - i) with 1 by lia. cbn [sum_close].
    unfold closeAt. rewrite Hrow. cbn. field.
Qed.

Lemma movingAverage_zero_lookback_witness :
  sample_series !! 1 = Some sample_1 /\
  exists a,
    movingAverage sample_series 0 !! 1 =
      Some {| ma_date := date sample_1; average := Some a |} /\
    (a == close sample_1)%Q.
Proof.
  split; [reflexivity|].
  exact (movingAverage_zero_lookback sample_series 1 sample_1 eq_refl).
Defined.

(** ** The crosshair lookup on every target *)

(** On a series that has a record the lookup ends in its second or third
    arm, with a record of the series. *)
Lemma crosshairLookup_defined (data : list OhlcvRecord) (t : Z) :
  data <> [] ->
  exists arm p, crosshairLookup data t = Some (arm, p) /\ p ∈ data.
Proof.
  intros Hne.
  destruct (bisector_left_bounds date data t 1 (length data) (le_n _))
    as (i & Hb & Hi1 & Hi2).
  fold (bisectDate data t 1) in Hb.
  assert (Hlen : 0 < length data) by (destruct data; [congruence|simpl; lia]).
  destruct (decide (length data <= i)) as [Hge|Hlt].
  - destruct (data !! (length data - 1)) as [d|] eqn:Hd.
    2:{ apply lookup_ge_None in Hd. lia. }
    rewrite (crosshairLookup_last data t i d Hb Hi1 Hge Hd).
    exists ArmLast, d. split; [reflexivity|]. apply list_elem_of_lookup. eauto.
  - destruct (data !! (i - 1)) as [d0|] eqn:H0.
    2:{ apply lookup_ge_None in H0. lia. }
    destruct (data !! i) as [d1|] eqn:H1.
    2:{ apply lookup_ge_None in H1. lia. }
    rewrite (crosshairLookup_nearest data t i d0 d1 Hb Hi1 ltac:(lia) H0 H1).
    destruct (decide (t - date d0 > date d1 - t)%Z).
    + exists ArmNearest, d1. split; [reflexivity|]. apply list_elem_of_lookup. eauto.
    + exists ArmNearest, d0. split; [reflexivity|]. apply list_elem_of_lookup. eauto.
Qed.

(** On a series with at least one record the lookup always returns one of
    its records, whatever the order of the series and the target; on no
    record at all it returns nothing, and [generateCrosshair] raises. *)
Theorem currentPoint_in_series (data : list OhlcvRecord) (t : Z) :
  (data = [] -> currentPoint data t = None) /\
  (data <> [] -> exists p, currentPoint data t = Some p /\ p ∈ data).
Proof.
  split.
  - intros ->.
    destruct (bisector_left_bounds date (@nil OhlcvRecord) t 1 0 (le_n _))
      as (i & Hb & Hi1 & Hi2).
    unfold currentPoint, crosshairLookup, bisectDate. cbn [length]. rewrite Hb.
    cbn [mbind option_bind]. destruct (decide (i = 0)); [lia|].
    destruct (decide (0 <= i)); [reflexivity|lia].
  - intros Hne. destruct (crosshairLookup_defined data t Hne) as (arm & p & Hp & Hin).
    exists p. unfold currentPoint. rewrite Hp. split; [reflexivity|exact Hin].
Qed.

Lemma currentPoint_in_series_witness :
  sample_series <> [] /\
  exists p, currentPoint sample_series 200000000 = Some p /\ p ∈ sample_series.
Proof.
  assert (Hne : sample_series <> []) by discriminate.
  split; [exact Hne|].
  exact (proj2 (currentPoint_in_series sample_series 200000000) Hne).
Defined.

(** On an ordered series the record the lookup ends with is as near to the
    target as any. *)
Lemma crosshairLookup_minimal (data : list OhlcvRecord) (t : Z) :
  date_ordered data = true -> data <> [] ->
  exists arm p, crosshairLookup data t = Some (arm, p) /\ p ∈ data /\
    forall q, q ∈ data -> (Z.abs (date p - t) <= Z.abs (date q - t))%Z.
Proof.
  intros Hord Hne.
  assert (Hlen : 0 < length data) by (destruct data; [congruence|simpl; lia]).
  pose proof (date_ordered_lookup data Hord) as Hsorted.
  destruct (bisectDate_split data t Hord) as (i & Hb & Hi1 & Hi2 & Hlow & Hhigh); [lia|].
  destruct (decide (length data <= i)) as [Hge|Hlt].
  - destruct (data !! (length data - 1)) as [d|] eqn:Hd.
    2:{ apply lookup_ge_None in Hd. lia. }
    rewrite (crosshairLookup_last data t i d Hb Hi1 Hge Hd).
    exists ArmLast, d. split; [reflexivity|]. split; [apply list_elem_of_lookup; eauto|].
    intros q Hq. apply list_elem_of_lookup in Hq as [k Hk].
    pose proof (lookup_lt_Some _ _ _ Hk) as Hklen.
    pose proof (Hsorted k (length data - 1) q d ltac:(lia) Hk Hd) as Hqd.
    destruct (decide (length data = 1)) as [Hone|Hmore].
    + assert (k = 0) as -> by lia. rewrite Hone in Hd. simpl in Hd.
      rewrite Hk in Hd. injection Hd as ->. lia.
    + pose proof (Hlow (length data - 1) d ltac:(lia) ltac:(lia) Hd). lia.
  - destruct (data !! (i - 1)) as [d0|] eqn:H0.
    2:{ apply lookup_ge_None in H0. lia. }
    destruct (data !! i) as [d1|] eqn:H1.
    2:{ apply lookup_ge_None in H1. lia. }
    rewrite (crosshairLookup_nearest data t i d0 d1 Hb Hi1 ltac:(lia) H0 H1).
    pose proof (Hhigh i d1 (le_n _) H1) as Hd1.
    destruct (decide (t - date d0 > date d1 - t)%Z) as [Hfar|Hnear].
    + exists ArmNearest, d1. split; [reflexivity|]. split; [apply list_elem_of_lookup; eauto|].
      intros q Hq. apply list_elem_of_lookup in Hq as [k Hk].
      destruct (decide (i <= k)) as [Hik|Hki].
      * pose proof (Hsorted i k d1 q Hik H1 Hk). lia.
      * pose proof (Hsorted k (i - 1) q d0 ltac:(lia) Hk H0). lia.
    + exists ArmNearest, d0. split; [reflexivity|]. split; [apply list_elem_of_lookup; eauto|].
      intros q Hq. apply list_elem_of_lookup in Hq as [k Hk].
      destruct (decide (i <= k)) as [Hik|Hki].
      * pose proof (Hsorted i k d1 q Hik H1 Hk).
        pose proof (Hsorted (i - 1) k d0 q ltac:(lia) H0 Hk). lia.
      * pose proof (Hsorted k (i - 1) q d0 ltac:(lia) Hk H0).
        destruct (decide (i = 1)) as [->|Hi].
        -- assert (k = 0) as -> by lia. simpl in H0. rewrite Hk in H0.
           injection H0 as ->. lia.
        -- pose proof (Hlow (i - 1) d0 ltac:(lia) ltac:(lia) H0). lia.
Qed.

(** On a non-empty date-ordered series the lookup returns, for every target
    date, a record whose date is as near to the target as that of any record
    of the series. *)
Theorem currentPoint_nearest (data : list OhlcvRecord) (t : Z) :
  date_ordered data = true -> data <> [] ->
  exists p, currentPoint data t = Some p /\ p ∈ data /\
    forall q, q ∈ data -> (Z.abs (date p - t) <= Z.abs (date q - t))%Z.
Proof.
  intros Hord Hne.
  destruct (crosshairLookup_minimal data t Hord Hne) as (arm & p & Hp & Hin & Hmin).
  exists p. unfold currentPoint. rewrite Hp.
  split; [reflexivity|]. split; assumption.
Qed.

Lemma currentPoint_nearest_witness :
  date_ordered sample_series = true /\ sample_series <> [] /\
  exists p, currentPoint sample_series 200000000 = Some p /\ p ∈ sample_series /\
    forall q, q ∈ sample_series ->
      (Z.abs (date p - 200000000) <= Z.abs (date q - 200000000))%Z.
Proof.
  assert (Hne : sample_series <> []) by discriminate.
  split; [reflexivity|]. split; [exact Hne|].
  exact (currentPoint_nearest sample_series 200000000 eq_refl Hne).
Defined.

(** ** The scales on the values they are built from *)


(** ** The drawn points stay inside the plot *)

(** The pixel abscissa of a date. *)
Lemma xScale_pixel (win : Window) (data : list OhlcvRecord) (x0 x1 : Z) (t : Z) :
  xMin data = Some x0 -> xMax data = Some x1 -> (x0 <= x1)%Z ->
  exists px,
    D3.apply (xScale win data) (inject_Z t) = Some px /\
    ((x0 < x1)%Z ->
     (px == width win * (inject_Z t - inject_Z x0) / (inject_Z x1 - inject_Z x0))%Q) /\
    (x0 = x1 -> (px == width win / 2)%Q).
Proof.
  intros H0 H1 Hle.
  assert (Hdom : D3.domain (xScale win data)
                 = (Some (inject_Z x0), Some (inject_Z x1))).
  { unfold xScale. cbn [D3.domain]. rewrite H0, H1. reflexivity. }
  destruct (decide (x0 < x1)%Z) as [Hlt|Hge].
  - assert (HltQ : (inject_Z x0 < inject_Z x1)%Q) by (rewrite <- Zlt_Qlt; exact Hlt).
    destruct (apply_affine _ _ _ (inject_Z t) Hdom HltQ) as (px & Hpx & Epx).
    exists px. split; [exact Hpx|]. split; [|lia].
    intros _. rewrite Epx. cbn [xScale D3.range fst snd]. field. lra.
  - assert (x0 = x1) as <- by lia.
    destruct (apply_collapsed _ _ _ (inject_Z t) Hdom (Qeq_refl _)) as (px & Hpx & Epx).
    exists px. split; [exact Hpx|]. split; [lia|].
    intros _. rewrite Epx. cbn [xScale D3.range fst snd]. field.
Qed.







(** The bounds of the time domain of an ordered series are the dates of its
    first and of its last record. *)
Lemma xMin_xMax_ordered (data : list OhlcvRecord) (first lst : OhlcvRecord) :
  date_ordered data = true -> head data = Some first -> last data = Some lst ->
  xMin data = Some (date first) /\ xMax data = Some (date lst).
Proof.
  intros Hord Hhead Hlast.
  rewrite head_lookup in Hhead. rewrite last_lookup in Hlast.
  pose proof (date_ordered_lookup data Hord) as Hsorted.
  assert (Hne : data <> []) by (intros ->; discriminate).
  assert (Hfirst : date first ∈ date <$> data).
  { apply list_elem_of_fmap. exists first. split; [reflexivity|].
    apply list_elem_of_lookup. eauto. }
  assert (Hlst : date lst ∈ date <$> data).
  { apply list_elem_of_fmap. exists lst. split; [reflexivity|].
    apply list_elem_of_lookup. eauto. }
  destruct (xMin_lowest data Hne) as (x0 & H0 & Hin0 & Hlow).
  destruct (xMax_highest data Hne) as (x1 & H1 & Hin1 & Hhigh).
  apply list_elem_of_fmap in Hin0 as (d0 & -> & Hd0).
  apply list_elem_of_fmap in Hin1 as (d1 & -> & Hd1).
  apply list_elem_of_lookup in Hd0 as [k0 Hk0].
  apply list_elem_of_lookup in Hd1 as [k1 Hk1].
  pose proof (lookup_lt_Some _ _ _ Hk1) as Hlen.
  pose proof (Hsorted 0 k0 first d0 ltac:(lia) Hhead Hk0).
  pose proof (Hsorted k1 (pred (length data)) d1 lst ltac:(lia) Hk1 Hlast).
  pose proof (Hlow _ Hfirst). pose proof (Hhigh _ Hlst).
  rewrite H0, H1. split; f_equal; lia.
Qed.

(** On a date-ordered series that spans more than one date the price path
    runs from the left edge of the plot to its right edge. *)
Theorem price_path_spans_plot (win : Window) (data : list OhlcvRecord)
    (first lst : OhlcvRecord) :
  date_ordered data = true -> head data = Some first -> last data = Some lst ->
  (date first < date lst)%Z ->
  exists xa xb,
    (line win data first).1 = Some xa /\ (xa == 0)%Q /\
    (line win data lst).1 = Some xb /\ (xb == width win)%Q.
Proof.
  intros Hord Hhead Hlast Hlt.
  destruct (xMin_xMax_ordered data first lst Hord Hhead Hlast) as [H0 H1].
  destruct (xScale_pixel win data _ _ (date first) H0 H1 ltac:(lia)) as (xa & Hxa & Ea & _).
  destruct (xScale_pixel win data _ _ (date lst) H0 H1 ltac:(lia)) as (xb & Hxb & Eb & _).
  assert (HD : (inject_Z (date first) < inject_Z (date lst))%Q)
    by (rewrite <- Zlt_Qlt; exact Hlt).
  exists xa, xb. unfold line. cbn [fst].
  split; [exact Hxa|]. split; [rewrite (Ea Hlt); field; lra|].
  split; [exact Hxb|]. rewrite (Eb Hlt). field. lra.
Qed.

Lemma price_path_spans_plot_witness :
  date_ordered sample_series = true /\ head sample_series = Some sample_0 /\
  last sample_series = Some sample_2 /\ (date sample_0 < date sample_2)%Z /\
  exists xa xb,
    (line sample_window sample_series sample_0).1 = Some xa /\ (xa == 0)%Q /\
    (line sample_window sample_series sample_2).1 = Some xb /\
    (xb == width sample_window)%Q.
Proof.
  assert (Hlt : (date sample_0 < date sample_2)%Z) by (simpl; lia).
  do 3 (split; [reflexivity|]). split; [exact Hlt|].
  exact (price_path_spans_plot sample_window sample_series sample_0 sample_2
           eq_refl eq_refl eq_refl Hlt).
Defined.

(** ** generateCrosshair *)



(** ** The volume bars *)

(** The ordinate of the bar of a record that has a volume. *)
Lemma yVolumeScale_pixel (win : Window) (data : list OhlcvRecord) (i : nat)
    (d : OhlcvRecord) :
  volData data !! i = Some d ->
  exists v v0 v1 y,
    volume d = Some v /\ yMinVolume data = Some v0 /\ yMaxVolume data = Some v1 /\
    (v0 <= v <= v1)%Q /\
    D3.apply (yVolumeScale win data) (Js.to_number (volume d)) = Some y /\
    ((v0 < v1)%Q ->
     (y == height win - (v - v0) / (v1 - v0) * (height win * (1 # 4)))%Q) /\
    ((v0 == v1)%Q -> (y == height win * (7 # 8))%Q).
Proof.
  intros Hd.
  assert (Hin : d ∈ volData data) by (apply list_elem_of_lookup; eauto).
  pose proof Hin as Hvol. apply volData_elem in Hvol as (_ & v & Hv & _).
  assert (Hvin : v ∈ nonzero_volumes data).
  { rewrite <- volData_volumes. apply list_elem_of_fmap. exists d.
    split; [rewrite Hv; reflexivity|exact Hin]. }
  assert (Hne : nonzero_volumes data <> []) by (intros E; rewrite E in Hvin; inversion Hvin).
  destruct (yVolume_domain data Hne) as (v0 & v1 & H0 & H1 & [_ Hlow] & [_ Hhigh]).
  assert (Hdom : D3.domain (yVolumeScale win data) = (Some v0, Some v1)).
  { unfold yVolumeScale. cbn [D3.domain]. rewrite H0, H1. reflexivity. }
  pose proof (Hlow v Hvin). pose proof (Hhigh v Hvin).
  rewrite Hv. cbn [Js.to_number default].
  destruct (Qlt_le_dec v0 v1) as [Hlt|Hge].
  - destruct (apply_affine _ _ _ v Hdom Hlt) as (y & Hy & Ey).
    exists v, v0, v1, y. do 3 (split; [first [reflexivity | assumption]|]).
    split; [lra|]. split; [exact Hy|]. split; [|intros; lra].
    intros _. rewrite Ey. cbn [yVolumeScale D3.range fst snd]. field. lra.
  - assert (Hsame : (v0 == v1)%Q) by lra.
    destruct (apply_collapsed _ _ _ v Hdom Hsame) as (y & Hy & Ey).
    exists v, v0, v1, y. do 3 (split; [first [reflexivity | assumption]|]).
    split; [lra|]. split; [exact Hy|]. split; [intros; lra|].
    intros _. rewrite Ey. cbn [yVolumeScale D3.range fst snd]. field.
Qed.

(** When the plotted volumes differ, a bar of the lowest volume is placed on
    the bottom edge of the plot with a height of 0: it is not visible. *)
Theorem volume_bar_lowest_flat (win : Window) (data : list OhlcvRecord)
    (i : nat) (b : Rect) :
  volBars win data !! i = Some b ->
  exists d v v0 v1 y h,
    volData data !! i = Some d /\ volume d = Some v /\
    yMinVolume data = Some v0 /\ yMaxVolume data = Some v1 /\
    rect_y b = Some y /\ rect_height b = Some h /\
    ((v0 < v1)%Q -> (v == v0)%Q -> (y == height win)%Q /\ (h == 0)%Q).
Proof.
  intros Hb. unfold volBars in Hb.
  apply list_lookup_imap_Some in Hb as (d & Hd & ->).
  destruct (yVolumeScale_pixel win data i d Hd)
    as (v & v0 & v1 & y & Hv & H0 & H1 & Hbetween & Hy & Haff & Hcol).
  exists d, v, v0, v1, y, (height win - y)%Q.
  cbn [rect_y rect_height]. rewrite Hy.
  split; [exact Hd|]. split; [exact Hv|]. split; [exact H0|]. split; [exact H1|].
  split; [reflexivity|]. split; [reflexivity|].
  intros Hlt Hlow.
  assert (Ey : (y == height win)%Q).
  { rewrite (Haff Hlt).
    setoid_replace (v - v0)%Q with 0%Q using relation Qeq by lra.
    field. lra. }
  split; [exact Ey|]. rewrite Ey. ring.
Qed.

Lemma volume_bar_lowest_flat_witness :
  exists b,
    volBars sample_window sample_series !! 0 = Some b /\
    exists d v v0 v1 y h,
      volData sample_series !! 0 = Some d /\ volume d = Some v /\
      yMinVolume sample_series = Some v0 /\ yMaxVolume sample_series = Some v1 /\
      rect_y b = Some y /\ rect_height b = Some h /\
      ((v0 < v1)%Q -> (v == v0)%Q -> (y == height sample_window)%Q /\ (h == 0)%Q).
Proof.
  eexists. split; [reflexivity|].
  exact (volume_bar_lowest_flat sample_window sample_series 0 _ eq_refl).
Defined.

(** The bar of volume 100 in the worked example, the lowest of the three,
    is drawn with height 0. *)
Example volume_bar_lowest_sample :
  exists b h, volBars sample_window sample_series !! 0 = Some b /\
              rect_height b = Some h /\ (h == 0)%Q.
Proof.
  eexists _, _. split; [reflexivity|]. split; [reflexivity|].
  vm_compute. reflexivity.
Qed.

(** ** Rendering again, and rendering several charts *)

Lemma renderChart_other (win : Window) (inst other : nat)
    (data : list OhlcvRecord) (page : Page) :
  inst <> other ->
  svgs_of (charts (renderChart win inst data page)) other = svgs_of (charts page) other.
Proof.
  intros Hne. unfold renderChart, svgs_of. cbn [charts].
  rewrite !lookup_insert_ne by exact Hne. reflexivity.
Qed.

(** A render of a chart supersedes the previous render of that chart
    entirely: nothing drawn or registered for the earlier data or viewport is
    left.  In particular rendering twice with the same input gives the page
    of rendering once. *)
Theorem renderChart_supersedes (win1 win2 : Window) (inst : nat)
    (data1 data2 : list OhlcvRecord) (page : Page) :
  renderChart win2 inst data2 (renderChart win1 inst data1 page)
  = renderChart win2 inst data2 page.
Proof.
  unfold renderChart. cbn [listeners charts]. f_equal.
  - rewrite (responsivefy_key inst (responsivefy inst (listeners page))).
    rewrite (responsivefy_key inst (listeners page)).
    apply insert_insert_eq.
  - unfold svgs_of. rewrite !lookup_insert_eq. cbn [default].
    rewrite !insert_insert_eq. reflexivity.
Qed.

(** Rendering one chart leaves the drawing of every other chart on the page
    as it was. *)
Theorem renderChart_isolated (win : Window) (inst other : nat)
    (data : list OhlcvRecord) (page : Page) :
  inst <> other ->
  svgs_of (charts (useEffect win inst (Some data) page)) other
  = svgs_of (charts page) other.
Proof.
  intros Hne. unfold useEffect.
  destruct (decide (0 < length data)); [|reflexivity].
  apply renderChart_other, Hne.
Qed.

Lemma renderChart_isolated_witness :
  0 <> 1 /\
  svgs_of (charts (useEffect sample_window 0 (Some sample_series)
                     (useEffect sample_window 1 (Some [sample_0]) empty_page))) 1
  = svgs_of (charts (useEffect sample_window 1 (Some [sample_0]) empty_page)) 1.
Proof.
  assert (H01 : 0 <> 1) by discriminate.
  split; [exact H01|].
  exact (renderChart_isolated sample_window 0 1 sample_series _ H01).
Defined.

Lemma run_snoc (win : Window) (updates : list (nat * option (list OhlcvRecord)))
    (u : nat * option (list OhlcvRecord)) (page : Page) :
  run win (updates ++ [u]) page = useEffect win u.1 u.2 (run win updates page).
Proof. unfold run. rewrite fold_left_app. reflexivity. Qed.

(** After any sequence of updates, starting from a page with nothing
    rendered, the chart of an instance holds exactly one [svg], that of the
    last data with a record the instance was given, and none if it was given
    no such data: drawings never pile up, and an update without data leaves
    the previous drawing in place. *)
Theorem run_shows_last_data (win : Window)
    (updates : list (nat * option (list OhlcvRecord))) (inst : nat) :
  svgs_of (charts (run win updates empty_page)) inst =
    match last_data inst updates with
    | Some data =>
        [ {| svg_xScale := xScale win data;
             svg_yScale := yScale win data;
             svg_priceChart := data;
             svg_movingAverageLine := movingAverage data 49;
             svg_vol := volBars win data |} ]
    | None => []
    end.
Proof.
  induction updates as [|u updates IH] using rev_ind.
  - reflexivity.
  - rewrite run_snoc. unfold last_data in *. rewrite omap_app, last_app.
    destruct u as [j [[|d rest]|]]; cbn [fst snd omap list_omap last useEffect].
    + destruct (decide (0 < length (@nil OhlcvRecord))) as [H|_]; [simpl in H; lia|].
      exact IH.
    + destruct (decide (0 < length (d :: rest))) as [_|H]; [|simpl in H; lia].
      destruct (decide (j = inst)) as [->|Hne].
      * cbn [last]. apply renderChart_svgs.
      * cbn [last]. rewrite (renderChart_other win j inst _ _ Hne). exact IH.
    + exact IH.
Qed.

(** After any sequence of updates, starting from a page without listeners,
    [window] holds at most one resize listener: that of the instance
    rendered last, whichever instances were rendered before. *)
Theorem run_single_listener (win : Window)
    (updates : list (nat * option (list OhlcvRecord))) :
  listeners (run win updates empty_page) =
    match last_rendered updates with
    | Some inst => {[ "resize.null"%string := inst ]}
    | None => ∅
    end.
Proof.
  induction updates as [|u updates IH] using rev_ind.
  - reflexivity.
  - rewrite run_snoc. unfold last_rendered in *. rewrite omap_app, last_app.
    destruct u as [j [[|d rest]|]]; cbn [fst snd omap list_omap last useEffect].
    + destruct (decide (0 < length (@nil OhlcvRecord))) as [H|_]; [simpl in H; lia|].
      exact IH.
    + destruct (decide (0 < length (d :: rest))) as [_|H]; [|simpl in H; lia].
      unfold renderChart. cbn [listeners]. rewrite responsivefy_key, IH.
      destruct (last _); [apply insert_singleton_eq|apply insert_empty].
    + exact IH.
Qed.

(** ** responsivefy: the resize handler *)

Lemma round_quotient (n m : Z) :
  (0 < m)%Z ->
  Js.round (inject_Z n / inject_Z m) = ((2 * n + m) / (2 * m))%Z.
Proof.
  intros Hm. unfold Js.round. rewrite Zdiv_Qdiv. apply Qfloor_comp.
  assert (HmQ : ~ (inject_Z m == 0)%Q).
  { change 0%Q with (inject_Z 0). rewrite inject_Z_injective. lia. }
  rewrite !inject_Z_mult, inject_Z_plus, !inject_Z_mult.
  change (inject_Z 2) with 2%Q. field. exact HmQ.
Qed.

(** For an [svg] of positive width and height the handler sets the width of
    the container and the height that keeps the aspect ratio, to the nearest
    pixel; at the original width it sets the original height. *)
Theorem resize_keeps_aspect (svgWidth svgHeight targetWidth : Z) :
  (0 < svgWidth)%Z -> (0 < svgHeight)%Z ->
  exists h,
    resize (aspect svgWidth svgHeight) targetWidth = Some (targetWidth, h) /\
    (Z.abs (2 * (h * svgWidth - targetWidth * svgHeight)) <= svgWidth)%Z /\
    (targetWidth = svgWidth -> h = svgHeight).
Proof.
  intros Hw Hh.
  assert (HwQ : ~ (inject_Z svgWidth == 0)%Q).
  { change 0%Q with (inject_Z 0). rewrite inject_Z_injective. lia. }
  assert (HhQ : ~ (inject_Z svgHeight == 0)%Q).
  { change 0%Q with (inject_Z 0). rewrite inject_Z_injective. lia. }
  assert (Ha : ~ (inject_Z svgWidth / inject_Z svgHeight == 0)%Q).
  { intros E. apply HwQ.
    setoid_replace (inject_Z svgWidth)
      with (inject_Z svgWidth / inject_Z svgHeight * inject_Z svgHeight)%Q
      using relation Qeq by (field; exact HhQ).
    rewrite E. ring. }
  exists ((2 * (targetWidth * svgHeight) + svgWidth) / (2 * svgWidth))%Z.
  split.
  - unfold resize, aspect, Js.div.
    rewrite (Qeq_bool_false _ HhQ). cbn [mbind option_bind].
    rewrite (Qeq_bool_false _ Ha). cbn [mbind option_bind].
    do 2 f_equal. rewrite <- round_quotient by exact Hw.
    unfold Js.round. apply Qfloor_comp.
    rewrite inject_Z_mult. field. split; assumption.
  - pose proof (Z.div_mod (2 * (targetWidth * svgHeight) + svgWidth) (2 * svgWidth)
                  ltac:(lia)) as Hdm.
    pose proof (Z.mod_pos_bound (2 * (targetWidth * svgHeight) + svgWidth)
                  (2 * svgWidth) ltac:(lia)) as Hmod.
    split; [nia|]. intros ->. nia.
Qed.

Lemma resize_keeps_aspect_witness :
  (0 < 1280)%Z /\ (0 < 680)%Z /\
  exists h,
    resize (aspect 1280 680) 640 = Some (640%Z, h) /\
    (Z.abs (2 * (h * 1280 - 640 * 680)) <= 1280)%Z /\
    (640%Z = 1280%Z -> h = 680%Z).
Proof.
  assert (Hw : (0 < 1280)%Z) by lia.
  assert (Hh : (0 < 680)%Z) by lia.
  split; [exact Hw|]. split; [exact Hh|].
  exact (resize_keeps_aspect 1280 680 640 Hw Hh).
Defined.

(** A container 641 pixels wide under an [svg] of 1280 by 680: the height is
    340.53 rounded to 341. *)
Example resize_sample : resize (aspect 1280 680) 641 = Some (641%Z, 341%Z).
Proof. reflexivity. Qed.
